(** * ScheduledMessengerBot: a shallow embedding of [telegram_bot.py]

    The bot keeps five module-level variables ([scheduled_job],
    [message_template], [message_time], [increment_counter],
    [decrement_counter]) and a handful of handlers that read and write
    them.  The development below models

    - Python text as [string] (one [ascii] per code point, so the text
      domain is Latin-1),
    - Python [int] as [Z],
    - the two regular expressions of the source as a deterministic
      matcher,
    - the handlers as computations in a small state-and-exception monad
      over the module-level variables, the job queue and a log of what
      was handed to the messaging gateway. *)

From Stdlib Require Import ZArith List String Ascii Bool Lia.
From Stdlib Require Import Decimal DecimalString DecimalPos.
Import ListNotations.
Local Open Scope string_scope.
Local Open Scope Z_scope.

(** ** Characters *)

Module Char.

Definition code (c : ascii) : N := N_of_ascii c.

(** [\d] of [re] on [str] patterns: the decimal digits.  Among the
    Latin-1 code points these are exactly ['0'..'9']. *)
Definition is_digit (c : ascii) : bool :=
  ((48 <=? code c) && (code c <=? 57))%N.

(** [\s] of [re] on [str] patterns, restricted to Latin-1:
    TAB LF VT FF CR, the separators FS GS RS US, SPACE, NEL and NBSP. *)
Definition is_space (c : ascii) : bool :=
  (((9 <=? code c) && (code c <=? 13))
   || ((28 <=? code c) && (code c <=? 32))
   || (code c =? 133) || (code c =? 160))%N.

(** The white space that [int()] skips around a literal: as [is_space]
    but without FS GS RS US. *)
Definition is_int_space (c : ascii) : bool :=
  (((9 <=? code c) && (code c <=? 13))
   || (code c =? 32) || (code c =? 133) || (code c =? 160))%N.

Definition digit_value (c : ascii) : Z := Z.of_N (code c) - 48.

(** [str.lower()] on one Latin-1 code point. *)
Definition lower (c : ascii) : ascii :=
  let n := code c in
  if (((65 <=? n) && (n <=? 90))
      || ((192 <=? n) && (n <=? 222) && negb (n =? 215)))%N
  then ascii_of_N (n + 32) else c.

End Char.

(** ** Strings *)

Module Str.

Fixpoint forallb (p : ascii -> bool) (s : string) : bool :=
  match s with
  | EmptyString => true
  | String c r => p c && forallb p r
  end.

Fixpoint lower (s : string) : string :=
  match s with
  | EmptyString => EmptyString
  | String c r => String (Char.lower c) (lower r)
  end.

(** [s.split(sep)] for a one-character separator: never empty. *)
Fixpoint split (sep : ascii) (s : string) : list string :=
  match s with
  | EmptyString => [EmptyString]
  | String c r =>
      if Ascii.eqb c sep then EmptyString :: split sep r
      else match split sep r with
           | f :: fs => String c f :: fs
           | [] => [String c EmptyString]
           end
  end.

Fixpoint lstrip (p : ascii -> bool) (s : string) : string :=
  match s with
  | EmptyString => EmptyString
  | String c r => if p c then lstrip p r else s
  end.

Fixpoint rstrip (p : ascii -> bool) (s : string) : string :=
  match s with
  | EmptyString => EmptyString
  | String c r =>
      match rstrip p r with
      | EmptyString => if p c then EmptyString else String c EmptyString
      | r' => String c r'
      end
  end.

Definition strip (p : ascii -> bool) (s : string) : string :=
  rstrip p (lstrip p s).

End Str.

(** ** Python's [int(str)] and [str(int)] *)

Module PyInt.

(** Digits after the first one; a single underscore may separate two
    digits. *)
Fixpoint digits_from (acc : Z) (s : string) : option Z :=
  match s with
  | EmptyString => Some acc
  | String c r =>
      if Char.is_digit c then digits_from (acc * 10 + Char.digit_value c) r
      else if Ascii.eqb c "_" then
        match r with
        | String d r' =>
            if Char.is_digit d
            then digits_from (acc * 10 + Char.digit_value d) r'
            else None
        | EmptyString => None
        end
      else None
  end.

Definition digits (s : string) : option Z :=
  match s with
  | String c r =>
      if Char.is_digit c then digits_from (Char.digit_value c) r else None
  | EmptyString => None
  end.

(** [int(s)]; [None] stands for [ValueError].  The conversion limit of
    4300 digits is not modelled: a Telegram text has at most 4096
    characters. *)
Definition int (s : string) : option Z :=
  match Str.strip Char.is_int_space s with
  | String "+" r => digits r
  | String "-" r => option_map Z.opp (digits r)
  | t => digits t
  end.

(** [str(n)] *)
Definition str (n : Z) : string := NilZero.string_of_int (Z.to_int n).

(** [format(n, "02d")] *)
Definition fmt_02d (n : Z) : string :=
  if (0 <=? n) && (n <? 10) then "0" ++ str n else str n.

End PyInt.

(** ** The two regular expressions

    Both patterns of the source have the shape [lit \s* (\d+) }] with a
    literal [lit].  The classes [\s], [\d] and the closing brace are
    pairwise disjoint, so the greedy match is the only one: backtracking
    never finds another. *)

Module Re.

Fixpoint strip_prefix (lit s : string) : option string :=
  match lit, s with
  | EmptyString, _ => Some s
  | String a l, String b r => if Ascii.eqb a b then strip_prefix l r else None
  | String _ _, EmptyString => None
  end.

(** The longest prefix of [s] whose characters satisfy [p]. *)
Fixpoint span (p : ascii -> bool) (s : string) : string :=
  match s with
  | EmptyString => EmptyString
  | String c r => if p c then String c (span p r) else EmptyString
  end.

(** A match anchored at the start of [s]: group 1 and what follows the
    match. *)
Definition match_here (lit s : string) : option (string * string) :=
  match strip_prefix lit s with
  | None => None
  | Some r1 =>
      let r2 := Str.lstrip Char.is_space r1 in
      match span Char.is_digit r2, Str.lstrip Char.is_digit r2 with
      | String d ds, String "}" rest => Some (String d ds, rest)
      | _, _ => None
      end
  end.

(** [re.search(pattern, s)]: group 1 of the leftmost match. *)
Fixpoint search (lit s : string) : option string :=
  match match_here lit s with
  | Some (g, _) => Some g
  | None =>
      match s with
      | EmptyString => None
      | String _ r => search lit r
      end
  end.

(** [re.sub(pattern, repl, s)] for a replacement without backslashes:
    leftmost non-overlapping matches are replaced.  The recursion
    continues behind the match, so it runs on a counter that
    [String.length s] always covers (lemma [sub_eq]). *)
Fixpoint sub_n (n : nat) (lit repl s : string) : string :=
  match n, s with
  | _, EmptyString => EmptyString
  | O, _ => s
  | S n', String c r =>
      match match_here lit s with
      | Some (_, rest) => repl ++ sub_n n' lit repl rest
      | None => String c (sub_n n' lit repl r)
      end
  end.

Definition sub (lit repl s : string) : string :=
  sub_n (String.length s) lit repl s.

(** [s] has a match of the pattern somewhere. *)
Definition occurs (lit s : string) : bool :=
  match search lit s with Some _ => true | None => false end.

End Re.

(** ** Data of the program *)

(** [datetime.time(hour, minute, tzinfo=ZoneInfo("Asia/Singapore"))]: the
    time zone is the same constant everywhere and is left out. *)
Record time := { hour : Z; minute : Z }.

(** The handle that [job_queue.run_daily] returns.  [job_id] stands for the
    identity of the Python object. *)
Record Job := { job_id : nat; job_time : time; chat_id : Z }.

(** What the handlers read of an incoming [Update]. *)
Record Update := {
  username : option string;      (* update.message.from_user.username *)
  text : string;                 (* update.message.text *)
  effective_chat : Z             (* update.effective_chat.id *)
}.

(** What the handlers read of their [context]; the job queue and the bot
    are part of [world]. *)
Record Context := {
  job : option Job;              (* context.job *)
  _chat_id : Z                   (* context._chat_id *)
}.

(** What was handed to the messaging gateway. *)
Inductive event :=
| ReplyText (chat : Z) (body : string)       (* update.message.reply_text *)
| SendMessage (chat : Z) (body : string).    (* context.bot.send_message *)

(** The five module-level variables, then the surroundings: the jobs
    registered in the job queue, the next fresh job identity and the log of
    gateway calls (oldest first). *)
Record world := {
  scheduled_job : option Job;
  message_template : string;
  message_time : option time;
  increment_counter : option Z;
  decrement_counter : option Z;
  job_queue : list Job;
  next_job_id : nat;
  outbox : list event
}.

Definition initial_world : world :=
  {| scheduled_job := None; message_template := ""; message_time := None;
     increment_counter := None; decrement_counter := None;
     job_queue := []; next_job_id := 0%nat; outbox := [] |}.

Definition with_scheduled_job (v : option Job) (w : world) : world :=
  {| scheduled_job := v; message_template := message_template w;
     message_time := message_time w;
     increment_counter := increment_counter w;
     decrement_counter := decrement_counter w;
     job_queue := job_queue w; next_job_id := next_job_id w;
     outbox := outbox w |}.

Definition with_message_template (v : string) (w : world) : world :=
  {| scheduled_job := scheduled_job w; message_template := v;
     message_time := message_time w;
     increment_counter := increment_counter w;
     decrement_counter := decrement_counter w;
     job_queue := job_queue w; next_job_id := next_job_id w;
     outbox := outbox w |}.

Definition with_message_time (v : option time) (w : world) : world :=
  {| scheduled_job := scheduled_job w; message_template := message_template w;
     message_time := v;
     increment_counter := increment_counter w;
     decrement_counter := decrement_counter w;
     job_queue := job_queue w; next_job_id := next_job_id w;
     outbox := outbox w |}.

Definition with_increment_counter (v : option Z) (w : world) : world :=
  {| scheduled_job := scheduled_job w; message_template := message_template w;
     message_time := message_time w;
     increment_counter := v;
     decrement_counter := decrement_counter w;
     job_queue := job_queue w; next_job_id := next_job_id w;
     outbox := outbox w |}.

Definition with_decrement_counter (v : option Z) (w : world) : world :=
  {| scheduled_job := scheduled_job w; message_template := message_template w;
     message_time := message_time w;
     increment_counter := increment_counter w;
     decrement_counter := v;
     job_queue := job_queue w; next_job_id := next_job_id w;
     outbox := outbox w |}.

Definition with_job_queue (q : list Job) (n : nat) (w : world) : world :=
  {| scheduled_job := scheduled_job w; message_template := message_template w;
     message_time := message_time w;
     increment_counter := increment_counter w;
     decrement_counter := decrement_counter w;
     job_queue := q; next_job_id := n;
     outbox := outbox w |}.

Definition with_event (e : event) (w : world) : world :=
  {| scheduled_job := scheduled_job w; message_template := message_template w;
     message_time := message_time w;
     increment_counter := increment_counter w;
     decrement_counter := decrement_counter w;
     job_queue := job_queue w; next_job_id := next_job_id w;
     outbox := outbox w ++ [e] |}.

(** ** Computations: state and exceptions *)

Inductive exn := ValueError | OverflowError | AttributeError.

Inductive outcome (A : Type) :=
| Returned (a : A) (w : world)
| Raised (e : exn) (w : world).
Arguments Returned {A} a w.
Arguments Raised {A} e w.

Definition M (A : Type) : Type := world -> outcome A.

Definition ret {A} (a : A) : M A := fun w => Returned a w.

Definition bind {A B} (m : M A) (k : A -> M B) : M B :=
  fun w => match m w with
           | Returned a w' => k a w'
           | Raised e w' => Raised e w'
           end.

Definition raise {A} (e : exn) : M A := fun w => Raised e w.

Definition gets {A} (f : world -> A) : M A := fun w => Returned (f w) w.

Definition modify (f : world -> world) : M unit := fun w => Returned tt (f w).

(** [try: body  except ValueError: handler] *)
Definition try_except_ValueError {A} (body handler : M A) : M A :=
  fun w => match body w with
           | Raised ValueError w' => handler w'
           | o => o
           end.

(** The world a computation leaves behind, however it ends. *)
Definition final {A} (o : outcome A) : world :=
  match o with Returned _ w => w | Raised _ w => w end.

Definition result {A} (o : outcome A) : option A :=
  match o with Returned a _ => Some a | Raised _ _ => None end.

Declare Scope monad_scope.
Delimit Scope monad_scope with monad.
Notation "x <- m ;; k" := (bind m (fun x => k))
  (at level 61, m at next level, right associativity) : monad_scope.
Notation "m ;; k" := (bind m (fun _ => k))
  (at level 61, right associativity) : monad_scope.
Local Open Scope monad_scope.

(** ** Library calls *)

(** The gateway is taken to accept whatever it is given: a call is logged
    and returns. *)
Definition reply_text (update : Update) (body : string) : M unit :=
  modify (with_event (ReplyText (effective_chat update) body)).

Definition send_message (chat : Z) (body : string) : M unit :=
  modify (with_event (SendMessage chat body)).

(** [int(s)] as a computation. *)
Definition int (s : string) : M Z :=
  match PyInt.int s with
  | Some n => ret n
  | None => raise ValueError
  end.

(** [a, b = map(int, fields)]: every way this can fail (a field that is
    no integer literal, fewer or more than two fields) is a [ValueError]
    and nothing is written before it. *)
Definition unpack2_int (fields : list string) : M (Z * Z) :=
  match fields with
  | [a; b] => h <- int a ;; m <- int b ;; ret (h, m)
  | _ => raise ValueError
  end.

Definition fits_c_int (n : Z) : bool :=
  (- 2147483648 <=? n) && (n <=? 2147483647).

(** [time(hour=h, minute=m, tzinfo=...)] as CPython's [datetime] does it:
    each argument is first converted to a C [int] ([OverflowError] when it
    does not fit), then the ranges are checked ([ValueError]). *)
Definition time_new (h m : Z) : M time :=
  if fits_c_int h && fits_c_int m then
    if (0 <=? h) && (h <=? 23) && (0 <=? m) && (m <=? 59)
    then ret {| hour := h; minute := m |}
    else raise ValueError
  else raise OverflowError.

(** [job.schedule_removal()]: the job leaves the queue. *)
Definition schedule_removal (j : Job) : M unit :=
  modify (fun w =>
    with_job_queue
      (filter (fun k => negb (Nat.eqb (job_id k) (job_id j))) (job_queue w))
      (next_job_id w) w).

(** [context.job_queue.run_daily(callback, time=t, chat_id=c)]: reading
    [t.hour] of [None] raises [AttributeError]. *)
Definition run_daily (t : option time) (c : Z) : M Job :=
  match t with
  | None => raise AttributeError
  | Some t =>
      n <- gets next_job_id ;;
      q <- gets job_queue ;;
      let j := {| job_id := n; job_time := t; chat_id := c |} in
      modify (with_job_queue (q ++ [j]) (S n)) ;;
      ret j
  end.

(** ** The program *)

Definition ALLOWED_USERNAME : string := "jaredtanzd".

(** [SET_MESSAGE, SET_TIME, CONFIRM = range(3)]; [ConversationHandler.END]
    is [-1]. *)
Definition SET_MESSAGE : Z := 0.
Definition SET_TIME : Z := 1.
Definition CONFIRM : Z := 2.
Definition END : Z := -1.

(** The literal heads of [r'{increment,\s*(\d+)}'] and
    [r'{decrement,\s*(\d+)}']. *)
Definition INCREMENT : string := "{increment,".
Definition DECREMENT : string := "{decrement,".

Definition nl : string := String (ascii_of_nat 10) EmptyString.

Definition parse_custom_message (template : string) : M string :=
  inc <- gets increment_counter ;;
  dec <- gets decrement_counter ;;
  let message := template in
  let message :=
    match inc with
    | Some i => Re.sub INCREMENT (PyInt.str i) message
    | None => message
    end in
  let message :=
    match dec with
    | Some d => Re.sub DECREMENT (PyInt.str d) message
    | None => message
    end in
  ret message.

Definition update_counters : M unit :=
  inc <- gets increment_counter ;;
  match inc with
  | Some i => modify (with_increment_counter (Some (i + 1)))
  | None => ret tt
  end ;;
  dec <- gets decrement_counter ;;
  match dec with
  | Some d => modify (with_decrement_counter (Some (d - 1)))
  | None => ret tt
  end.

Definition check_user (update : Update) : bool :=
  match username update with
  | Some n => String.eqb n ALLOWED_USERNAME
  | None => false
  end.

Definition create_scheduled_message (update : Update) (context : Context)
  : M Z :=
  if negb (check_user update) then
    reply_text update "You are not authorized to use this bot." ;;
    ret END
  else
    reply_text update "Let's create a scheduled message. First, please enter the custom message you want to send daily." ;;
    ret SET_MESSAGE.

Definition set_message (update : Update) (context : Context) : M Z :=
  if negb (check_user update) then
    reply_text update "You are not authorized to use this bot." ;;
    ret END
  else
    modify (with_message_template (text update)) ;;
    template <- gets message_template ;;
    let increment_match := Re.search INCREMENT template in
    let decrement_match := Re.search DECREMENT template in
    match increment_match with
    | Some g => n <- int g ;; modify (with_increment_counter (Some n))
    | None => ret tt
    end ;;
    match decrement_match with
    | Some g => n <- int g ;; modify (with_decrement_counter (Some n))
    | None => ret tt
    end ;;
    reply_text update "Message set. Now, please specify the time for the daily message (in 24-hour format, e.g., 14:30 for 2:30 PM)." ;;
    ret SET_TIME.

Definition preview_text (h m : Z) (preview_message : string) : string :=
  "Your message will be sent daily at " ++ PyInt.fmt_02d h ++ ":"
  ++ PyInt.fmt_02d m ++ " Singapore time." ++ nl ++ nl
  ++ "Here's a preview of your message:" ++ nl ++ nl
  ++ preview_message ++ nl ++ nl ++ "Is this correct? (Yes/No)".

Definition set_time (update : Update) (context : Context) : M Z :=
  if negb (check_user update) then
    reply_text update "You are not authorized to use this bot." ;;
    ret END
  else
    try_except_ValueError
      (hm <- unpack2_int (Str.split ":" (text update)) ;;
       t <- time_new (fst hm) (snd hm) ;;
       modify (with_message_time (Some t)) ;;
       template <- gets message_template ;;
       preview_message <- parse_custom_message template ;;
       reply_text update (preview_text (fst hm) (snd hm) preview_message) ;;
       ret CONFIRM)
      (reply_text update "Invalid time format. Please use HH:MM (24-hour format)." ;;
       ret SET_TIME).

Definition confirm (update : Update) (context : Context) : M Z :=
  if negb (check_user update) then
    reply_text update "You are not authorized to use this bot." ;;
    ret END
  else if String.eqb (Str.lower (text update)) "yes" then
    sj <- gets scheduled_job ;;
    match sj with
    | Some j => schedule_removal j
    | None => ret tt
    end ;;
    t <- gets message_time ;;
    j <- run_daily t (effective_chat update) ;;
    modify (with_scheduled_job (Some j)) ;;
    reply_text update "Scheduled message has been set up successfully!" ;;
    ret END
  else if String.eqb (Str.lower (text update)) "no" then
    reply_text update "Let's start over. Please enter your custom message." ;;
    ret SET_MESSAGE
  else
    reply_text update "Please respond with 'Yes' or 'No'." ;;
    ret CONFIRM.

Definition send_scheduled_message (context : Context) : M unit :=
  update_counters ;;
  template <- gets message_template ;;
  message_to_send <- parse_custom_message template ;;
  let chat :=
    match job context with
    | Some j => chat_id j
    | None => _chat_id context
    end in
  send_message chat message_to_send.

Definition stop_scheduled_message (update : Update) (context : Context)
  : M unit :=
  if negb (check_user update) then
    reply_text update "You are not authorized to use this bot."
  else
    sj <- gets scheduled_job ;;
    match sj with
    | Some j =>
        schedule_removal j ;;
        modify (with_scheduled_job None) ;;
        reply_text update "Scheduled message has been stopped."
    | None => reply_text update "There is no active scheduled message."
    end.

Definition cancel (update : Update) (context : Context) : M Z :=
  if negb (check_user update) then
    reply_text update "You are not authorized to use this bot." ;;
    ret END
  else
    reply_text update "Operation cancelled." ;;
    ret END.

Definition trigger_job (update : Update) (context : Context) : M unit :=
  if negb (check_user update) then
    reply_text update "You are not authorized to use this bot."
  else
    send_scheduled_message context ;;
    reply_text update "Scheduled job triggered manually.".

(** ** Entry points, as [main] registers them *)

Inductive entry_point :=
| EP_create_scheduled_message
| EP_set_message
| EP_set_time
| EP_confirm
| EP_stop_scheduled_message
| EP_trigger_job
| EP_cancel.

(** The value a callback hands back to the dispatcher: an [int] for the
    conversation callbacks, [None] for the two plain command callbacks. *)
Definition call (e : entry_point) (update : Update) (context : Context)
  : M (option Z) :=
  match e with
  | EP_create_scheduled_message =>
      s <- create_scheduled_message update context ;; ret (Some s)
  | EP_set_message => s <- set_message update context ;; ret (Some s)
  | EP_set_time => s <- set_time update context ;; ret (Some s)
  | EP_confirm => s <- confirm update context ;; ret (Some s)
  | EP_cancel => s <- cancel update context ;; ret (Some s)
  | EP_stop_scheduled_message =>
      stop_scheduled_message update context ;; ret None
  | EP_trigger_job => trigger_job update context ;; ret None
  end.

(** The context of a callback run for an update (no job), and of one run
    by the job queue for a registered job. *)
Definition update_context (update : Update) : Context :=
  {| job := None; _chat_id := effective_chat update |}.

Definition job_context (j : Job) : Context :=
  {| job := Some j; _chat_id := chat_id j |}.

(** One event of the process: a callback runs for some update, or the job
    queue fires a registered job. *)
Inductive step : world -> world -> Prop :=
| step_update (e : entry_point) (u : Update) (w : world) :
    step w (final (call e u (update_context u) w))
| step_firing (j : Job) (w : world) :
    In j (job_queue w) ->
    step w (final (send_scheduled_message (job_context j) w)).

Inductive reachable : world -> Prop :=
| reachable_initial : reachable initial_world
| reachable_step (w w' : world) : reachable w -> step w w' -> reachable w'.

(** ** Views of the state used in the statements *)

(** The template and the counters that a firing reads. *)
Definition active_state (w : world) : string * option Z * option Z :=
  (message_template w, increment_counter w, decrement_counter w).

(** Everything but the gateway log. *)
Definition same_state (w w' : world) : Prop :=
  scheduled_job w' = scheduled_job w /\
  message_template w' = message_template w /\
  message_time w' = message_time w /\
  increment_counter w' = increment_counter w /\
  decrement_counter w' = decrement_counter w /\
  job_queue w' = job_queue w /\
  next_job_id w' = next_job_id w.

(** What [update_counters] and [parse_custom_message] compute, as plain
    functions of the counters and the template (lemmas
    [update_counters_spec] and [parse_custom_message_spec]). *)
Definition advance (c : option Z * option Z) : option Z * option Z :=
  (option_map (fun i => i + 1) (fst c), option_map (fun d => d - 1) (snd c)).

Definition render (template : string) (inc dec : option Z) : string :=
  let message :=
    match inc with
    | Some i => Re.sub INCREMENT (PyInt.str i) template
    | None => template
    end in
  match dec with
  | Some d => Re.sub DECREMENT (PyInt.str d) message
  | None => message
  end.

(** Predicates on text used in the statements. *)

(** [m] is, from its first to its last character, one match of the
    pattern with literal head [lit]. *)
Definition occurrence (lit m : string) : Prop :=
  exists g, Re.match_here lit m = Some (g, EmptyString).

Definition not_open_brace (c : ascii) : bool := negb (Ascii.eqb c "{").

Definition brace_free (s : string) : bool := Str.forallb not_open_brace s.

(** The invariant of the job queue: it holds exactly the job behind the
    handle, and a handle exists only once a time was entered. *)
Definition job_invariant (w : world) : Prop :=
  job_queue w = match scheduled_job w with Some j => [j] | None => [] end
  /\ (scheduled_job w <> None -> message_time w <> None).

(** [n] runs of [update_counters]. *)
Fixpoint advance_n (n : nat) (c : option Z * option Z) : option Z * option Z :=
  match n with
  | O => c
  | S n' => advance_n n' (advance c)
  end.

Fixpoint update_counters_n (n : nat) : M unit :=
  match n with
  | O => ret tt
  | S n' => update_counters ;; update_counters_n n'
  end.

Definition counters (w : world) : option Z * option Z :=
  (increment_counter w, decrement_counter w).

Definition rejection (u : Update) : event :=
  ReplyText (effective_chat u) "You are not authorized to use this bot.".

Definition set_counters (c : option Z * option Z) (w : world) : world :=
  with_decrement_counter (snd c) (with_increment_counter (fst c) w).

(** The chat a firing delivers to. *)
Definition target (context : Context) : Z :=
  match job context with
  | Some j => chat_id j
  | None => _chat_id context
  end.

(** The world after one firing: counters advanced, then the template
    rendered with the advanced counters and handed to the gateway. *)
Definition fired (context : Context) (w : world) : world :=
  let c := advance (counters w) in
  with_event
    (SendMessage (target context) (render (message_template w) (fst c) (snd c)))
    (set_counters c w).

(** Updates used in the examples: the allow-listed user and somebody
    else, both writing in chat 42. *)
Definition owner (t : string) : Update :=
  {| username := Some ALLOWED_USERNAME; text := t; effective_chat := 42 |}.

Definition stranger (t : string) : Update :=
  {| username := Some "mallory"; text := t; effective_chat := 42 |}.

Definition chat42 : Context := {| job := None; _chat_id := 42 |}.

(** The set-up conversation of the end-to-end example. *)
Definition day_setup : M Z :=
  create_scheduled_message (owner "/create_scheduled_message") chat42 ;;
  set_message (owner "Day {increment, 1}") chat42 ;;
  set_time (owner "09:00") chat42 ;;
  confirm (owner "yes") chat42.

(** Which entry points belong to the conversation handler. *)
Definition in_conversation (e : entry_point) : bool :=
  match e with
  | EP_stop_scheduled_message | EP_trigger_job => false
  | _ => true
  end.

(** What [set_message] leaves in a counter: the numeric argument of the
    first occurrence of the pattern, or the old value when the pattern
    does not occur. *)
Definition seeded (lit template : string) (old : option Z) : option Z :=
  match Re.search lit template with
  | Some g => PyInt.int g
  | None => old
  end.

Definition MESSAGE_SET : string :=
  "Message set. Now, please specify the time for the daily message (in 24-hour format, e.g., 14:30 for 2:30 PM).".

(** The two integers that [set_time] reads from its text, when the text
    has exactly two colon-separated fields and [int] accepts both. *)
Definition parse_time (t : string) : option (Z * Z) :=
  match Str.split ":" t with
  | [a; b] =>
      match PyInt.int a, PyInt.int b with
      | Some h, Some m => Some (h, m)
      | _, _ => None
      end
  | _ => None
  end.

Definition valid_time (h m : Z) : bool :=
  (0 <=? h) && (h <=? 23) && (0 <=? m) && (m <=? 59).

Definition INVALID_TIME : string :=
  "Invalid time format. Please use HH:MM (24-hour format).".

Definition SET_UP : string :=
  "Scheduled message has been set up successfully!".

(** The job that [confirm] registers in world [w] for update [u]. *)
Definition new_job (u : Update) (t : time) (w : world) : Job :=
  {| job_id := next_job_id w; job_time := t; chat_id := effective_chat u |}.

(** The queue once [schedule_removal] ran on the job behind the handle. *)
Definition without_job (sj : option Job) (q : list Job) : list Job :=
  match sj with
  | Some j => filter (fun k => negb (Nat.eqb (job_id k) (job_id j))) q
  | None => q
  end.

(** ** Further views, for the properties beyond the claims *)

(** A placeholder as a user writes it: the literal head, white space, the
    number, the closing brace. *)
Definition placeholder (lit ws : string) (k : Z) : string :=
  lit ++ ws ++ PyInt.str k ++ "}".

(** [n] firings in a row with the same context. *)
Fixpoint fire_n (context : Context) (n : nat) : M unit :=
  match n with
  | O => ret tt
  | S n' => send_scheduled_message context ;; fire_n context n'
  end.

(** The numbers [1], ..., [n]. *)
Definition upto (n : nat) : list Z := map Z.of_nat (seq 1 n).

(** How often a character occurs in a text. *)
Fixpoint count_char (c : ascii) (s : string) : nat :=
  match s with
  | EmptyString => O
  | String x r => (if Ascii.eqb x c then 1 else 0) + count_char c r
  end.


Definition valid_time_of (t : time) : bool := valid_time (hour t) (minute t).

(** Every time of day the program holds is one: the time entered last,
    the time of the job behind the handle and of the jobs in the queue. *)
Definition time_invariant (w : world) : Prop :=
  (forall t, message_time w = Some t -> valid_time_of t = true)
  /\ (forall j, scheduled_job w = Some j -> valid_time_of (job_time j) = true)
  /\ (forall j, In j (job_queue w) -> valid_time_of (job_time j) = true).


(** * Facts about text *)

Section StringFacts.

Variable p : ascii -> bool.

Lemma span_lstrip (s : string) : Re.span p s ++ Str.lstrip p s = s.
Proof.
  induction s as [|c r IH]; simpl; [reflexivity|].
  destruct (p c); simpl; [now rewrite IH | reflexivity].
Qed.

Lemma span_forallb (s : string) : Str.forallb p (Re.span p s) = true.
Proof.
  induction s as [|c r IH]; simpl; [reflexivity|].
  destruct (p c) eqn:E; simpl; [now rewrite E | reflexivity].
Qed.

Lemma lstrip_length (s : string) :
  (String.length (Str.lstrip p s) <= String.length s)%nat.
Proof.
  induction s as [|c r IH]; simpl; [lia|].
  destruct (p c); simpl; lia.
Qed.

(** A run of [p]-characters followed by a character outside [p]. *)
Lemma span_run (a : string) (c : ascii) (r : string) :
  Str.forallb p a = true -> p c = false ->
  Re.span p (a ++ String c r) = a /\ Str.lstrip p (a ++ String c r) = String c r.
Proof.
  intros Ha Hc. induction a as [|x a IH]; simpl in *.
  - now rewrite Hc.
  - apply andb_true_iff in Ha as [Hx Ha]. rewrite Hx.
    destruct (IH Ha) as [-> ->]. now split.
Qed.

(** Appending text that starts outside [p] does not move the end of the
    run. *)
Lemma span_app_stop (a : string) (c : ascii) (r : string) :
  p c = false -> Re.span p (a ++ String c r) = Re.span p a.
Proof.
  intros Hc. induction a as [|x a IH]; simpl.
  - now rewrite Hc.
  - destruct (p x); [now rewrite IH | reflexivity].
Qed.

Lemma lstrip_app_stop (a : string) (c : ascii) (r : string) :
  p c = false ->
  Str.lstrip p (a ++ String c r) = Str.lstrip p a ++ String c r.
Proof.
  intros Hc. induction a as [|x a IH]; simpl.
  - now rewrite Hc.
  - destruct (p x); [exact IH | reflexivity].
Qed.

Lemma forallb_app (a b : string) :
  Str.forallb p (a ++ b) = Str.forallb p a && Str.forallb p b.
Proof.
  induction a as [|x a IH]; simpl; [reflexivity|].
  now rewrite IH, andb_assoc.
Qed.

Lemma rstrip_id (s : string) :
  Str.forallb (fun c => negb (p c)) s = true -> Str.rstrip p s = s.
Proof.
  induction s as [|c r IH]; simpl; [reflexivity|].
  intros H. apply andb_true_iff in H as [Hc Hr].
  rewrite (IH Hr). destruct r; [|reflexivity].
  apply negb_true_iff in Hc. now rewrite Hc.
Qed.

End StringFacts.

Lemma append_assoc (a b c : string) : (a ++ b) ++ c = a ++ (b ++ c).
Proof. induction a as [|x a IH]; simpl; [reflexivity | now rewrite IH]. Qed.

Lemma append_nil_r (a : string) : a ++ "" = a.
Proof. induction a as [|x a IH]; simpl; [reflexivity | now rewrite IH]. Qed.

Lemma length_append (a b : string) :
  String.length (a ++ b) = (String.length a + String.length b)%nat.
Proof. induction a as [|x a IH]; simpl; [reflexivity | now rewrite IH]. Qed.

(** * Facts about the matcher *)

Lemma digit_not_space (c : ascii) :
  Char.is_digit c = true -> Char.is_space c = false.
Proof.
  destruct c as [[] [] [] [] [] [] [] []]; vm_compute; congruence.
Qed.

Lemma digit_not_int_space (c : ascii) :
  Char.is_digit c = true -> Char.is_int_space c = false.
Proof.
  destruct c as [[] [] [] [] [] [] [] []]; vm_compute; congruence.
Qed.

Lemma digit_not_open_brace (c : ascii) :
  Char.is_digit c = true -> not_open_brace c = true.
Proof.
  destruct c as [[] [] [] [] [] [] [] []]; vm_compute; congruence.
Qed.

Lemma space_not_open_brace (c : ascii) :
  Char.is_space c = true -> not_open_brace c = true.
Proof.
  destruct c as [[] [] [] [] [] [] [] []]; vm_compute; congruence.
Qed.

Lemma forallb_impl (p q : ascii -> bool) (s : string) :
  (forall c, p c = true -> q c = true) ->
  Str.forallb p s = true -> Str.forallb q s = true.
Proof.
  intros Hpq. induction s as [|c r IH]; simpl; [reflexivity|].
  intros H. apply andb_true_iff in H as [Hc Hr].
  now rewrite (Hpq c Hc), (IH Hr).
Qed.

Section MatcherFacts.

Variable lit : string.

Lemma strip_prefix_app (s : string) : Re.strip_prefix lit (lit ++ s) = Some s.
Proof.
  induction lit as [|a l IH]; simpl; [now destruct s|].
  now rewrite Ascii.eqb_refl.
Qed.

Lemma strip_prefix_inv (s r : string) :
  Re.strip_prefix lit s = Some r -> s = lit ++ r.
Proof.
  revert s. induction lit as [|a l IH]; intros s; simpl.
  - destruct s; intros H; now inversion H.
  - destruct s as [|b s]; [discriminate|].
    destruct (Ascii.eqb_spec a b) as [->|]; [|discriminate].
    intros H. now rewrite (IH _ H).
Qed.

(** The matcher accepts exactly the texts that the regular expression
    describes: the literal head, white space, one or more digits, a
    closing brace. *)
Lemma match_here_sound (s g rest : string) :
  Re.match_here lit s = Some (g, rest) ->
  exists ws,
    s = lit ++ ws ++ g ++ String "}" rest
    /\ Str.forallb Char.is_space ws = true
    /\ Str.forallb Char.is_digit g = true
    /\ g <> "".
Proof.
  unfold Re.match_here.
  destruct (Re.strip_prefix lit s) as [r1|] eqn:E1; [|discriminate].
  apply strip_prefix_inv in E1. subst s.
  pose proof (span_lstrip Char.is_space r1) as Hs.
  pose proof (span_forallb Char.is_space r1) as Hws.
  set (r2 := Str.lstrip Char.is_space r1) in *.
  pose proof (span_lstrip Char.is_digit r2) as Hd.
  pose proof (span_forallb Char.is_digit r2) as Hg.
  destruct (Re.span Char.is_digit r2) as [|d ds] eqn:E2; [discriminate|].
  destruct (Str.lstrip Char.is_digit r2) as [|c rest'] eqn:E3; [discriminate|].
  destruct (Ascii.eqb_spec c "}") as [->|Hc].
  - intros H. inversion H; subst g rest. clear H.
    exists (Re.span Char.is_space r1). repeat split; try assumption; try discriminate.
    now rewrite Hd, Hs.
  - intros H. exfalso.
    destruct c as [[] [] [] [] [] [] [] []]; try discriminate H.
    now apply Hc.
Qed.

Lemma match_here_complete (ws g rest : string) :
  Str.forallb Char.is_space ws = true ->
  Str.forallb Char.is_digit g = true ->
  g <> "" ->
  Re.match_here lit (lit ++ ws ++ g ++ String "}" rest) = Some (g, rest).
Proof.
  intros Hws Hg Hne. unfold Re.match_here.
  rewrite strip_prefix_app.
  destruct g as [|d ds]; [congruence|].
  simpl in Hg. apply andb_true_iff in Hg as [Hd Hds].
  change (String d ds ++ String "}" rest)
    with (String d (ds ++ String "}" rest)).
  destruct (span_run Char.is_space ws d (ds ++ String "}" rest) Hws
              (digit_not_space d Hd)) as [_ ->].
  change (String d (ds ++ String "}" rest))
    with (String d ds ++ String "}" rest).
  assert (Hall : Str.forallb Char.is_digit (String d ds) = true)
    by (simpl; now rewrite Hd, Hds).
  destruct (span_run Char.is_digit (String d ds) "}" rest Hall eq_refl)
    as [-> ->].
  reflexivity.
Qed.

(** A match is never empty. *)
Lemma match_here_shorter (s g rest : string) :
  Re.match_here lit s = Some (g, rest) ->
  (String.length rest < String.length s)%nat.
Proof.
  intros H. apply match_here_sound in H as (ws & -> & _ & _ & _).
  rewrite !length_append. simpl. lia.
Qed.

(** What follows a match has no influence on it. *)
Lemma match_here_app (s g rest x : string) :
  Re.match_here lit s = Some (g, rest) ->
  Re.match_here lit (s ++ x) = Some (g, rest ++ x).
Proof.
  intros H. apply match_here_sound in H as (ws & -> & Hws & Hg & Hne).
  rewrite !append_assoc. simpl.
  now apply match_here_complete.
Qed.

(** [sub_n] does not depend on its counter once the counter covers the
    text. *)
Lemma sub_n_enough (repl : string) (n m : nat) (s : string) :
  (String.length s <= n)%nat -> (String.length s <= m)%nat ->
  Re.sub_n n lit repl s = Re.sub_n m lit repl s.
Proof.
  revert m s. induction n as [|n IH]; intros m s Hn Hm.
  - destruct s; simpl in Hn; [now destruct m | lia].
  - destruct s as [|c r]; [now destruct m|].
    destruct m as [|m]; [simpl in Hm; lia|].
    simpl in Hn, Hm. cbn [Re.sub_n].
    destruct (Re.match_here lit (String c r)) as [[g rest]|] eqn:E.
    + apply match_here_shorter in E. simpl in E.
      f_equal. apply IH; lia.
    + f_equal. apply IH; lia.
Qed.

Lemma sub_nil (repl : string) : Re.sub lit repl "" = "".
Proof. reflexivity. Qed.

(** The defining equation of [re.sub]. *)
Lemma sub_eq (repl : string) (c : ascii) (r : string) :
  Re.sub lit repl (String c r) =
  match Re.match_here lit (String c r) with
  | Some (_, rest) => repl ++ Re.sub lit repl rest
  | None => String c (Re.sub lit repl r)
  end.
Proof.
  unfold Re.sub. cbn [String.length Re.sub_n].
  destruct (Re.match_here lit (String c r)) as [[g rest]|] eqn:E.
  - apply match_here_shorter in E. simpl in E.
    f_equal. apply sub_n_enough; lia.
  - reflexivity.
Qed.

Lemma search_eq (s : string) :
  Re.search lit s =
  match Re.match_here lit s with
  | Some (g, _) => Some g
  | None =>
      match s with
      | EmptyString => None
      | String _ r => Re.search lit r
      end
  end.
Proof. now destruct s. Qed.

(** Without a match there is nothing to replace. *)
Lemma search_none_sub (repl s : string) :
  Re.search lit s = None -> Re.sub lit repl s = s.
Proof.
  induction s as [|c r IH]; [reflexivity|].
  intros H. rewrite sub_eq. cbn [Re.search] in H.
  destruct (Re.match_here lit (String c r)) as [[g rest]|]; [discriminate|].
  now rewrite (IH H).
Qed.

End MatcherFacts.

(** * Matches never straddle an opening brace

    The literal heads of both patterns start with an opening brace and
    have no other; white space, digits and the closing brace are no
    opening brace either.  So a match that starts before an opening brace
    ends before it, and substitution can be done piece by piece on both
    sides of any opening brace. *)

Section BraceBoundary.

Variable l : string.
Hypothesis l_free : brace_free l = true.

Lemma strip_prefix_boundary (k a X : string) :
  brace_free k = true ->
  Re.strip_prefix k (a ++ String "{" X) =
  match Re.strip_prefix k a with
  | Some r => Some (r ++ String "{" X)
  | None => None
  end.
Proof.
  revert a. induction k as [|x k IH]; intros a Hk.
  - now destruct a.
  - simpl in Hk. apply andb_true_iff in Hk as [Hx Hk].
    destruct a as [|b a]; simpl.
    + unfold not_open_brace in Hx. apply negb_true_iff in Hx. now rewrite Hx.
    + destruct (Ascii.eqb x b); [now apply IH | reflexivity].
Qed.

Lemma match_here_boundary (c : ascii) (r X : string) :
  Re.match_here (String "{" l) (String c r ++ String "{" X) =
  match Re.match_here (String "{" l) (String c r) with
  | Some (g, r0) => Some (g, r0 ++ String "{" X)
  | None => None
  end.
Proof.
  unfold Re.match_here. cbn [append Re.strip_prefix].
  destruct (Ascii.eqb "{" c); [|reflexivity].
  rewrite (strip_prefix_boundary l r X l_free).
  destruct (Re.strip_prefix l r) as [r1|]; [|reflexivity].
  rewrite (lstrip_app_stop Char.is_space r1 "{" X eq_refl).
  set (r2 := Str.lstrip Char.is_space r1).
  rewrite (span_app_stop Char.is_digit r2 "{" X eq_refl).
  rewrite (lstrip_app_stop Char.is_digit r2 "{" X eq_refl).
  destruct (Re.span Char.is_digit r2) as [|d ds]; [reflexivity|].
  destruct (Str.lstrip Char.is_digit r2) as [|c' rest']; [reflexivity|].
  cbn [append].
  destruct c' as [[] [] [] [] [] [] [] []]; reflexivity.
Qed.

Lemma match_here_no_brace (c : ascii) (r : string) :
  not_open_brace c = true -> Re.match_here (String "{" l) (String c r) = None.
Proof.
  intros Hc. unfold Re.match_here. cbn [Re.strip_prefix].
  unfold not_open_brace in Hc. apply negb_true_iff in Hc.
  rewrite Ascii.eqb_sym in Hc. now rewrite Hc.
Qed.

(** Substitution splits at every opening brace. *)
Lemma sub_split_at_brace (repl X pre : string) :
  Re.sub (String "{" l) repl (pre ++ String "{" X) =
  Re.sub (String "{" l) repl pre ++ Re.sub (String "{" l) repl (String "{" X).
Proof.
  remember (String.length pre) as n eqn:Hn.
  revert pre Hn. induction n as [n IH] using lt_wf_ind. intros pre Hn.
  destruct pre as [|c r]; [reflexivity|].
  cbn [append].
  rewrite (sub_eq _ repl c r), (sub_eq _ repl c (r ++ String "{" X)).
  change (String c (r ++ String "{" X)) with (String c r ++ String "{" X).
  rewrite match_here_boundary.
  destruct (Re.match_here (String "{" l) (String c r)) as [[g r0]|] eqn:E.
  - apply match_here_shorter in E.
    assert (Hlt : (String.length r0 < n)%nat) by (subst n; exact E).
    rewrite (IH _ Hlt r0 eq_refl).
    now rewrite append_assoc.
  - cbn [append]. f_equal.
    assert (Hlt : (String.length r < n)%nat) by (subst n; simpl; lia).
    exact (IH _ Hlt r eq_refl).
Qed.

(** Text without an opening brace passes through. *)
Lemma sub_brace_free (repl a s : string) :
  brace_free a = true ->
  Re.sub (String "{" l) repl (a ++ s) = a ++ Re.sub (String "{" l) repl s.
Proof.
  induction a as [|x a IH]; intros Ha; [reflexivity|].
  simpl in Ha. apply andb_true_iff in Ha as [Hx Ha].
  cbn [append]. rewrite sub_eq, (match_here_no_brace x _ Hx).
  now rewrite (IH Ha).
Qed.

Lemma search_split_at_brace (X pre : string) :
  Re.search (String "{" l) (pre ++ String "{" X) =
  match Re.search (String "{" l) pre with
  | Some g => Some g
  | None => Re.search (String "{" l) (String "{" X)
  end.
Proof.
  induction pre as [|c r IH]; [reflexivity|].
  rewrite (search_eq _ (String c r)), (search_eq _ (String c r ++ _)).
  rewrite match_here_boundary.
  destruct (Re.match_here (String "{" l) (String c r)) as [[g r0]|];
    [reflexivity|].
  exact IH.
Qed.

(** An occurrence starts with an opening brace and has no other. *)
Lemma occurrence_shape (m : string) :
  occurrence (String "{" l) m ->
  exists m', m = String "{" m' /\ brace_free m' = true.
Proof.
  intros [g H]. apply match_here_sound in H as (ws & -> & Hws & Hg & _).
  exists (l ++ ws ++ g ++ "}"). split; [reflexivity|].
  unfold brace_free. rewrite !forallb_app.
  fold (brace_free l). rewrite l_free.
  rewrite (forallb_impl _ _ ws space_not_open_brace Hws).
  rewrite (forallb_impl _ _ g digit_not_open_brace Hg).
  reflexivity.
Qed.

(** An occurrence of the pattern is replaced, whatever surrounds it. *)
Lemma sub_occurrence (repl pre m post : string) :
  occurrence (String "{" l) m ->
  Re.sub (String "{" l) repl (pre ++ m ++ post) =
  Re.sub (String "{" l) repl pre ++ repl ++ Re.sub (String "{" l) repl post.
Proof.
  intros Hm. destruct (occurrence_shape m Hm) as (m' & Em & _).
  destruct Hm as [g Hg].
  assert (Hrest : Re.sub (String "{" l) repl (m ++ post)
                  = repl ++ Re.sub (String "{" l) repl post).
  { pose proof (match_here_app _ _ _ _ post Hg) as H.
    subst m. change (String "{" m' ++ post) with (String "{" (m' ++ post)) in *.
    now rewrite sub_eq, H. }
  subst m. change (String "{" m' ++ post) with (String "{" (m' ++ post)) in *.
  now rewrite sub_split_at_brace, Hrest.
Qed.

End BraceBoundary.

(** * Python's [int] on what the patterns capture and on what [str] prints *)

Lemma digit_value_range (c : ascii) :
  Char.is_digit c = true -> 0 <= Char.digit_value c <= 9.
Proof.
  unfold Char.is_digit, Char.digit_value. intros H.
  apply andb_true_iff in H as [H1 H2].
  apply N.leb_le in H1, H2. lia.
Qed.

Lemma digits_from_total (s : string) (acc : Z) :
  Str.forallb Char.is_digit s = true -> 0 <= acc ->
  exists k, PyInt.digits_from acc s = Some k /\ 0 <= k.
Proof.
  revert acc. induction s as [|c r IH]; intros acc Hs Hacc; simpl.
  - now exists acc.
  - simpl in Hs. apply andb_true_iff in Hs as [Hc Hr]. rewrite Hc.
    apply IH; [assumption|]. pose proof (digit_value_range c Hc). lia.
Qed.

(** On a non-empty run of digits [int] skips nothing and sees no sign. *)
Lemma int_digits (g : string) :
  Str.forallb Char.is_digit g = true -> g <> "" ->
  PyInt.int g = PyInt.digits g.
Proof.
  intros Hg Hne. destruct g as [|d ds]; [congruence|].
  unfold PyInt.int, Str.strip.
  assert (Hd : Char.is_digit d = true)
    by (simpl in Hg; now apply andb_true_iff in Hg as [? _]).
  cbn [Str.lstrip]. rewrite (digit_not_int_space d Hd).
  rewrite rstrip_id.
  - destruct d as [[] [] [] [] [] [] [] []]; try discriminate Hd; reflexivity.
  - revert Hg. apply forallb_impl. intros c Hc.
    now rewrite (digit_not_int_space c Hc).
Qed.

(** [int(match.group(1))] never raises. *)
Lemma int_group (g : string) :
  Str.forallb Char.is_digit g = true -> g <> "" ->
  exists k, PyInt.int g = Some k /\ 0 <= k.
Proof.
  intros Hg Hne. rewrite (int_digits g Hg Hne).
  destruct g as [|d ds]; [congruence|].
  simpl in Hg. apply andb_true_iff in Hg as [Hd Hds].
  simpl. rewrite Hd. apply digits_from_total; [assumption|].
  pose proof (digit_value_range d Hd). lia.
Qed.

Lemma search_group (lit s g : string) :
  Re.search lit s = Some g ->
  Str.forallb Char.is_digit g = true /\ g <> "".
Proof.
  induction s as [|c r IH]; rewrite search_eq.
  - destruct (Re.match_here lit "") as [[g' rest]|] eqn:E; [|discriminate].
    intros H. inversion H; subst g'.
    now apply match_here_sound in E as (ws & _ & _ & Hg & Hne).
  - destruct (Re.match_here lit (String c r)) as [[g' rest]|] eqn:E.
    + intros H. inversion H; subst g'.
      now apply match_here_sound in E as (ws & _ & _ & Hg & Hne).
    + exact IH.
Qed.

Lemma string_of_uint_digits (d : Decimal.uint) :
  Str.forallb Char.is_digit (NilEmpty.string_of_uint d) = true.
Proof. induction d; simpl; auto. Qed.

Lemma digits_from_uint (d e : Decimal.uint) :
  PyInt.digits_from (Z.of_N (DecimalPos.Unsigned.of_lu e))
    (NilEmpty.string_of_uint d)
  = Some (Z.of_N (DecimalPos.Unsigned.of_lu (Decimal.revapp d e))).
Proof.
  revert e. induction d; intros e; [reflexivity|..];
    cbn [NilEmpty.string_of_uint PyInt.digits_from Decimal.revapp];
    (match goal with
     | |- context [Char.is_digit ?c] =>
         change (Char.is_digit c) with true; cbv iota
     end);
    rewrite <- IHd; f_equal; cbn [DecimalPos.Unsigned.of_lu];
    (match goal with
     | |- context [Char.digit_value ?c] =>
         let v := eval vm_compute in (Char.digit_value c) in
         change (Char.digit_value c) with v
     end);
    lia.
Qed.

Lemma digits_string_of_uint (d : Decimal.uint) :
  d <> Decimal.Nil ->
  PyInt.digits (NilEmpty.string_of_uint d) = Some (Z.of_N (Pos.of_uint d)).
Proof.
  intros Hd. rewrite DecimalPos.Unsigned.of_uint_alt. unfold Decimal.rev.
  destruct d; [congruence|..];
    cbn [NilEmpty.string_of_uint PyInt.digits Decimal.revapp];
    (match goal with
     | |- context [Char.is_digit ?c] =>
         change (Char.is_digit c) with true; cbv iota
     end);
    rewrite <- digits_from_uint; reflexivity.
Qed.

(** [int(str(k)) == k] *)
Lemma string_of_uint_nonnil (d : Decimal.uint) :
  d <> Decimal.Nil ->
  NilZero.string_of_uint d = NilEmpty.string_of_uint d
  /\ NilEmpty.string_of_uint d <> "".
Proof. destruct d; [congruence|..]; intros _; split; (reflexivity || discriminate). Qed.

Lemma int_str (k : Z) : PyInt.int (PyInt.str k) = Some k.
Proof.
  destruct k as [|p|p]; [reflexivity|..];
    unfold PyInt.str; cbn [Z.to_int NilZero.string_of_int];
    pose proof (DecimalPos.Unsigned.to_uint_nonnil p) as Hnn;
    destruct (string_of_uint_nonnil _ Hnn) as [-> Hs].
  - rewrite (int_digits _ (string_of_uint_digits _) Hs).
    now rewrite (digits_string_of_uint _ Hnn), DecimalPos.Unsigned.of_to.
  - unfold PyInt.int, Str.strip. cbn [Str.lstrip].
    change (Char.is_int_space "-") with false. cbv iota.
    rewrite rstrip_id.
    + now rewrite (digits_string_of_uint _ Hnn), DecimalPos.Unsigned.of_to.
    + cbn [Str.forallb]. change (negb (Char.is_int_space "-")) with true.
      cbn [andb].
      generalize (string_of_uint_digits (Pos.to_uint p)).
      apply forallb_impl. intros c Hc. now rewrite (digit_not_int_space c Hc).
Qed.

(** * The counter store and the renderer *)

Lemma update_counters_spec (w : world) :
  update_counters w = Returned tt (set_counters (advance (counters w)) w).
Proof. destruct w as [sj t mt [i|] [d|] q n o]; reflexivity. Qed.

Lemma parse_custom_message_spec (template : string) (w : world) :
  parse_custom_message template w
  = Returned (render template (increment_counter w) (decrement_counter w)) w.
Proof. destruct w as [sj t mt [i|] [d|] q n o]; reflexivity. Qed.

Lemma send_scheduled_message_spec (context : Context) (w : world) :
  send_scheduled_message context w = Returned tt (fired context w).
Proof.
  unfold send_scheduled_message, bind. rewrite update_counters_spec.
  unfold gets. rewrite parse_custom_message_spec. reflexivity.
Qed.

Lemma update_counters_n_spec (n : nat) (w : world) :
  update_counters_n n w
  = Returned tt (set_counters (advance_n n (counters w)) w).
Proof.
  revert w. induction n as [|n IH]; intros w.
  - destruct w; reflexivity.
  - cbn [update_counters_n advance_n]. unfold bind.
    rewrite update_counters_spec, IH.
    destruct w as [sj t mt i d q k o]; reflexivity.
Qed.

Ltac counters_eq :=
  repeat match goal with
         | |- (_, _) = (_, _) => f_equal
         | |- Some _ = Some _ => f_equal
         end;
  try reflexivity; try lia.

Lemma advance_n_spec (n : nat) (i d : option Z) :
  advance_n n (i, d)
  = (option_map (fun x => x + Z.of_nat n) i,
     option_map (fun x => x - Z.of_nat n) d).
Proof.
  revert i d. induction n as [|n IH]; intros i d.
  - destruct i, d; cbn [advance_n option_map]; counters_eq.
  - cbn [advance_n]. unfold advance. cbn [fst snd]. rewrite IH.
    rewrite Nat2Z.inj_succ.
    destruct i, d; cbn [option_map]; counters_eq.
Qed.

(** * Firing *)

(** C3: a firing, be it the daily callback or [trigger_job], advances the
    counters once, renders the template with the advanced counters and
    hands exactly one message with the rendered text to the gateway.
    After the conversation for ["Day {increment, 1}"] at 09:00 is
    confirmed, the first manual trigger delivers ["Day 2"] and the second
    ["Day 3"]. *)
Theorem firing_advances_renders_delivers :
  (forall (context : Context) (w : world),
      exists w',
        send_scheduled_message context w = Returned tt w'
        /\ counters w' = advance (counters w)
        /\ message_template w' = message_template w
        /\ outbox w' =
             (outbox w ++
              [SendMessage (target context)
                 (render (message_template w)
                    (increment_counter w') (decrement_counter w'))])%list
        /\ scheduled_job w' = scheduled_job w
        /\ job_queue w' = job_queue w
        /\ message_time w' = message_time w)
  /\ (forall (j : Job) (w : world),
         send_scheduled_message (job_context j) w
         = Returned tt (fired (job_context j) w)
         /\ target (job_context j) = chat_id j)
  /\ (forall (t : string) (c : Z) (context : Context) (w : world),
         let u := {| username := Some ALLOWED_USERNAME; text := t;
                     effective_chat := c |} in
         trigger_job u context w
         = Returned tt
             (with_event (ReplyText c "Scheduled job triggered manually.")
                (fired context w)))
  /\ (exists w0,
         day_setup initial_world = Returned END w0
         /\ scheduled_job w0 <> None
         /\ outbox (final (trigger_job (owner "/trigger_job") chat42 w0))
            = (outbox w0 ++
               [SendMessage 42 "Day 2";
                ReplyText 42 "Scheduled job triggered manually."])%list
         /\ outbox
              (final
                 ((trigger_job (owner "/trigger_job") chat42 ;;
                   trigger_job (owner "/trigger_job") chat42) w0))
            = (outbox w0 ++
               [SendMessage 42 "Day 2";
                ReplyText 42 "Scheduled job triggered manually.";
                SendMessage 42 "Day 3";
                ReplyText 42 "Scheduled job triggered manually."])%list).
Proof.
  split; [|split; [|split]].
  - intros context w. exists (fired context w).
    split; [apply send_scheduled_message_spec|].
    destruct w as [sj t mt i d q n o]. repeat split.
  - intros j w. split; [apply send_scheduled_message_spec | reflexivity].
  - intros t c context w u. unfold trigger_job.
    change (check_user u) with true. cbn [negb]. unfold bind.
    now rewrite send_scheduled_message_spec.
  - eexists. split; [vm_compute; reflexivity|].
    split; [discriminate|]. split; vm_compute; reflexivity.
Qed.

(** C10: an authorized [trigger_job] runs the firing sequence whatever
    the state: it does not look at [scheduled_job] or at whether a
    template was ever set.  In the initial world it advances nothing,
    renders the empty template and hands the empty text for the invoking
    chat to the gateway; active counters are changed exactly as a firing
    of a registered job changes them. *)
Theorem trigger_job_fires_unconditionally
  (u : Update) (context : Context) (w : world) (H : check_user u = true) :
  trigger_job u context w
  = Returned tt
      (with_event
         (ReplyText (effective_chat u) "Scheduled job triggered manually.")
         (final (send_scheduled_message context w)))
  /\ counters (final (trigger_job u context w)) = advance (counters w)
  /\ (forall j : Job,
         counters (final (trigger_job u context w))
         = counters (final (send_scheduled_message (job_context j) w)))
  /\ trigger_job (owner "/trigger_job")
       (update_context (owner "/trigger_job")) initial_world
     = Returned tt
         {| scheduled_job := None; message_template := "";
            message_time := None;
            increment_counter := None; decrement_counter := None;
            job_queue := []; next_job_id := 0%nat;
            outbox := [SendMessage 42 "";
                       ReplyText 42 "Scheduled job triggered manually."] |}.
Proof.
  assert (E : trigger_job u context w
              = Returned tt
                  (with_event
                     (ReplyText (effective_chat u)
                        "Scheduled job triggered manually.")
                     (fired context w))).
  { unfold trigger_job. rewrite H. cbn [negb]. unfold bind.
    now rewrite send_scheduled_message_spec. }
  rewrite E, !send_scheduled_message_spec. cbn [final].
  split; [reflexivity|]. split; [now destruct w|]. split; [|reflexivity].
  intros j. rewrite send_scheduled_message_spec. now destruct w.
Qed.

Lemma trigger_job_fires_unconditionally_witness :
  check_user (owner "/trigger_job") = true
  /\ counters (final (trigger_job (owner "/trigger_job") chat42
                        (with_decrement_counter (Some 0) initial_world)))
     = advance (None, Some 0).
Proof.
  split; [reflexivity|].
  exact (proj1 (proj2 (trigger_job_fires_unconditionally
                         (owner "/trigger_job") chat42
                         (with_decrement_counter (Some 0) initial_world)
                         eq_refl))).
Defined.

(** * Stopping *)

(** C9: an authorized stop without an active job answers that there is
    none, returns normally and changes nothing else; with an active job it
    takes that job out of the queue, clears the handle and answers that
    the scheduled message was stopped. *)
Theorem stop_scheduled_message_spec
  (u : Update) (context : Context) (w : world) (H : check_user u = true) :
  (scheduled_job w = None ->
   stop_scheduled_message u context w
   = Returned tt
       (with_event
          (ReplyText (effective_chat u) "There is no active scheduled message.")
          w)
   /\ same_state w (final (stop_scheduled_message u context w)))
  /\ (forall j : Job,
         scheduled_job w = Some j ->
         exists w',
           stop_scheduled_message u context w = Returned tt w'
           /\ scheduled_job w' = None
           /\ ~ In j (job_queue w')
           /\ (job_invariant w -> job_queue w' = [])
           /\ outbox w' =
                (outbox w ++
                 [ReplyText (effective_chat u)
                    "Scheduled message has been stopped."])%list
           /\ active_state w' = active_state w
           /\ message_time w' = message_time w).
Proof.
  unfold stop_scheduled_message. rewrite H. cbn [negb]. split.
  - intros E. unfold bind, gets. rewrite E. split; [reflexivity|].
    cbn. now repeat split.
  - intros j E. unfold bind, gets. rewrite E. cbn.
    eexists. split; [reflexivity|]. cbn. repeat split.
    + intros Hin. apply filter_In in Hin as [_ Hin].
      now rewrite Nat.eqb_refl in Hin.
    + intros [Hq _]. rewrite Hq, E. cbn. now rewrite Nat.eqb_refl.
Qed.

Lemma stop_scheduled_message_spec_witness :
  check_user (owner "/stop_scheduled_message") = true
  /\ (scheduled_job initial_world = None ->
      stop_scheduled_message (owner "/stop_scheduled_message") chat42
        initial_world
      = Returned tt
          (with_event
             (ReplyText 42 "There is no active scheduled message.")
             initial_world)
      /\ same_state initial_world
           (final (stop_scheduled_message (owner "/stop_scheduled_message")
                     chat42 initial_world))).
Proof.
  split; [reflexivity|].
  exact (proj1 (stop_scheduled_message_spec
                  (owner "/stop_scheduled_message") chat42 initial_world
                  eq_refl)).
Defined.

(** * Authorization *)

Lemma call_rejects
  (e : entry_point) (u : Update) (context : Context) (w : world) :
  check_user u = false ->
  call e u context w
  = Returned (if in_conversation e then Some END else None)
      (with_event (rejection u) w).
Proof.
  intros H.
  destruct e; unfold call, create_scheduled_message, set_message, set_time,
    confirm, cancel, stop_scheduled_message, trigger_job;
    rewrite H; reflexivity.
Qed.

(** C4, as the code has it: for a sender other than the allow-listed one,
    every entry point leaves the module-level variables and the job queue
    as they were and answers with the rejection; the five conversation
    callbacks return the terminal state, while [stop_scheduled_message]
    and [trigger_job], which are plain command callbacks, return nothing. *)
Theorem unauthorized_is_rejected
  (e : entry_point) (u : Update) (context : Context) (w : world)
  (H : check_user u = false) :
  call e u context w
  = Returned (if in_conversation e then Some END else None)
      (with_event (rejection u) w)
  /\ same_state w (final (call e u context w))
  /\ outbox (final (call e u context w)) = (outbox w ++ [rejection u])%list.
Proof.
  rewrite (call_rejects e u context w H). cbn. now repeat split.
Qed.

Lemma unauthorized_is_rejected_witness :
  check_user (stranger "yes") = false
  /\ call EP_confirm (stranger "yes") chat42 initial_world
     = Returned (Some END) (with_event (rejection (stranger "yes")) initial_world).
Proof.
  split; [reflexivity|].
  exact (proj1 (unauthorized_is_rejected EP_confirm (stranger "yes") chat42
                  initial_world eq_refl)).
Defined.

(** C4 as stated fails: an unauthorized [stop_scheduled_message] or
    [trigger_job] does not return the terminal state. *)
Lemma unauthorized_stop_returns_no_state :
  check_user (stranger "/stop_scheduled_message") = false
  /\ result (call EP_stop_scheduled_message
               (stranger "/stop_scheduled_message") chat42 initial_world)
     <> Some (Some END)
  /\ result (call EP_trigger_job (stranger "/trigger_job") chat42
               initial_world)
     <> Some (Some END).
Proof. repeat split; discriminate. Qed.

(** * Seeding *)

Lemma seeded_some (lit template g : string) (old : option Z) :
  Re.search lit template = Some g ->
  exists k, PyInt.int g = Some k /\ 0 <= k /\ seeded lit template old = Some k.
Proof.
  intros E. destruct (search_group _ _ _ E) as [Hg Hne].
  destruct (int_group g Hg Hne) as (k & Hk & Hpos).
  exists k. unfold seeded. now rewrite E.
Qed.

(** [set_message] for the allow-listed user: it never raises, and writes
    the module-level template and counters at once. *)
Lemma set_message_spec (u : Update) (context : Context) (w : world) :
  check_user u = true ->
  set_message u context w
  = Returned SET_TIME
      (with_event (ReplyText (effective_chat u) MESSAGE_SET)
         (set_counters
            (seeded INCREMENT (text u) (increment_counter w),
             seeded DECREMENT (text u) (decrement_counter w))
            (with_message_template (text u) w))).
Proof.
  intros H. unfold set_message. rewrite H. cbn [negb].
  unfold bind, modify, gets. cbn [message_template with_message_template].
  destruct (Re.search INCREMENT (text u)) as [gi|] eqn:Ei;
    destruct (Re.search DECREMENT (text u)) as [gd|] eqn:Ed.
  - destruct (seeded_some _ _ _ (increment_counter w) Ei) as (i & Hi & _ & Si).
    destruct (seeded_some _ _ _ (decrement_counter w) Ed) as (d & Hd & _ & Sd).
    rewrite Si, Sd. unfold int, ret. rewrite Hi, Hd. now destruct w.
  - destruct (seeded_some _ _ _ (increment_counter w) Ei) as (i & Hi & _ & Si).
    rewrite Si. unfold seeded at 1. rewrite Ed.
    unfold int, ret. rewrite Hi. now destruct w.
  - destruct (seeded_some _ _ _ (decrement_counter w) Ed) as (d & Hd & _ & Sd).
    rewrite Sd. unfold seeded at 1. rewrite Ei.
    unfold int, ret. rewrite Hd. now destruct w.
  - unfold seeded. rewrite Ei, Ed. now destruct w.
Qed.

(** C2, as the code has it: [set_message] replaces the template; a
    counter whose pattern occurs in the new template becomes the numeric
    argument of the first occurrence; a counter whose pattern does not
    occur keeps the value it had. *)
Theorem set_message_seeds
  (u : Update) (context : Context) (w : world) (H : check_user u = true) :
  exists w',
    set_message u context w = Returned SET_TIME w'
    /\ message_template w' = text u
    /\ (Re.search INCREMENT (text u) = None ->
        increment_counter w' = increment_counter w)
    /\ (forall g, Re.search INCREMENT (text u) = Some g ->
        exists k, PyInt.int g = Some k /\ increment_counter w' = Some k)
    /\ (Re.search DECREMENT (text u) = None ->
        decrement_counter w' = decrement_counter w)
    /\ (forall g, Re.search DECREMENT (text u) = Some g ->
        exists k, PyInt.int g = Some k /\ decrement_counter w' = Some k).
Proof.
  eexists. split; [now apply set_message_spec|].
  destruct w as [sj t mt i d q n o]. cbn. unfold seeded.
  split; [reflexivity|]. repeat split.
  - intros E. now rewrite E.
  - intros g E. rewrite E.
    destruct (seeded_some _ _ _ None E) as (k & Hk & _ & _). now exists k.
  - intros E. now rewrite E.
  - intros g E. rewrite E.
    destruct (seeded_some _ _ _ None E) as (k & Hk & _ & _). now exists k.
Qed.

Lemma set_message_seeds_witness :
  check_user (owner "{increment, 5} to go") = true
  /\ exists w',
      set_message (owner "{increment, 5} to go") chat42 initial_world
      = Returned SET_TIME w'
      /\ message_template w' = "{increment, 5} to go"
      /\ increment_counter w' = Some 5
      /\ decrement_counter w' = None.
Proof.
  split; [reflexivity|].
  destruct (set_message_seeds (owner "{increment, 5} to go") chat42
              initial_world eq_refl)
    as (w' & E & Ht & _ & Hi & Hd & _).
  exists w'. split; [exact E|]. split; [exact Ht|]. split.
  - destruct (Hi "5" eq_refl) as (k & Hk & ->). now inversion Hk.
  - exact (Hd eq_refl).
Defined.

(** C2 as stated fails: a counter whose pattern is absent from the new
    template is not cleared.  After ["{increment, 5}"] was set, setting
    ["hello"] leaves the increment counter at 5. *)
Lemma set_message_keeps_stale_counter :
  Re.occurs INCREMENT "hello" = false
  /\ increment_counter
       (final (set_message (owner "hello") chat42
                 (final (set_message (owner "{increment, 5}") chat42
                           initial_world))))
     = Some 5
  /\ increment_counter
       (final (set_message (owner "hello") chat42
                 (final (set_message (owner "{increment, 5}") chat42
                           initial_world))))
     <> None.
Proof. repeat split; discriminate. Qed.

(** [str(k)] of a natural number is a non-empty run of digits. *)
Lemma str_nonneg_digits (k : Z) :
  0 <= k ->
  Str.forallb Char.is_digit (PyInt.str k) = true /\ PyInt.str k <> "".
Proof.
  intros Hk. destruct k as [|p|p]; [split; [reflexivity|discriminate]| |lia].
  unfold PyInt.str. cbn [Z.to_int NilZero.string_of_int].
  pose proof (DecimalPos.Unsigned.to_uint_nonnil p) as Hnn.
  destruct (string_of_uint_nonnil _ Hnn) as [-> Hs].
  split; [apply string_of_uint_digits | exact Hs].
Qed.

(** The first occurrence decides what [re.search] finds: if no match lies
    in [pre], the placeholder right behind it is the one. *)
Lemma search_first_occurrence (l pre ws g post : string) :
  brace_free l = true ->
  Re.occurs (String "{" l) pre = false ->
  Str.forallb Char.is_space ws = true ->
  Str.forallb Char.is_digit g = true -> g <> "" ->
  Re.search (String "{" l) (pre ++ String "{" l ++ ws ++ g ++ String "}" post)
  = Some g.
Proof.
  intros Hl Hpre Hws Hg Hne.
  change (String "{" l ++ ws ++ g ++ String "}" post)
    with (String "{" (l ++ ws ++ g ++ String "}" post)).
  rewrite (search_split_at_brace l Hl).
  unfold Re.occurs in Hpre.
  destruct (Re.search (String "{" l) pre); [discriminate|].
  rewrite search_eq.
  change (String "{" (l ++ ws ++ g ++ String "}" post))
    with (String "{" l ++ ws ++ g ++ String "}" post).
  now rewrite match_here_complete.
Qed.

(** * Counting *)

(** C8: after a template whose first increment placeholder carries the
    number [k] is set, the increment counter is [k], and after [N] runs of
    [update_counters] it is [k + N]; a decrement counter seeded with [k]
    is [k - N] after [N] runs, below zero when [N > k]; a counter that is
    [None] stays [None]. *)
Theorem counters_seed_and_advance
  (u : Update) (context : Context) (w : world)
  (pre ws post : string) (k : Z) (N : nat)
  (H : check_user u = true) (Hk : 0 <= k)
  (Hws : Str.forallb Char.is_space ws = true) :
  (Re.occurs INCREMENT pre = false ->
   text u = pre ++ INCREMENT ++ ws ++ PyInt.str k ++ String "}" post ->
   exists w1,
     set_message u context w = Returned SET_TIME w1
     /\ increment_counter w1 = Some k
     /\ exists wN,
         update_counters_n N w1 = Returned tt wN
         /\ increment_counter wN = Some (k + Z.of_nat N))
  /\ (Re.occurs DECREMENT pre = false ->
      text u = pre ++ DECREMENT ++ ws ++ PyInt.str k ++ String "}" post ->
      exists w1,
        set_message u context w = Returned SET_TIME w1
        /\ decrement_counter w1 = Some k
        /\ exists wN,
            update_counters_n N w1 = Returned tt wN
            /\ decrement_counter wN = Some (k - Z.of_nat N))
  /\ (exists wN,
         update_counters_n N w = Returned tt wN
         /\ (increment_counter w = None -> increment_counter wN = None)
         /\ (decrement_counter w = None -> decrement_counter wN = None)).
Proof.
  destruct (str_nonneg_digits k Hk) as [Hg Hne].
  split; [|split].
  - intros Hpre Ht.
    assert (E : Re.search INCREMENT (text u) = Some (PyInt.str k))
      by (rewrite Ht; now apply (search_first_occurrence "increment,")).
    eexists. split; [now apply set_message_spec|].
    assert (S1 : seeded INCREMENT (text u) (increment_counter w) = Some k)
      by (unfold seeded; now rewrite E, int_str).
    split; [destruct w; cbn; exact S1|].
    eexists. split; [apply update_counters_n_spec|].
    unfold counters. rewrite advance_n_spec.
    destruct w; cbn in *. now rewrite S1.
  - intros Hpre Ht.
    assert (E : Re.search DECREMENT (text u) = Some (PyInt.str k))
      by (rewrite Ht; now apply (search_first_occurrence "decrement,")).
    eexists. split; [now apply set_message_spec|].
    assert (S1 : seeded DECREMENT (text u) (decrement_counter w) = Some k)
      by (unfold seeded; now rewrite E, int_str).
    split; [destruct w; cbn; exact S1|].
    eexists. split; [apply update_counters_n_spec|].
    unfold counters. rewrite advance_n_spec.
    destruct w; cbn in *. now rewrite S1.
  - eexists. split; [apply update_counters_n_spec|].
    unfold counters. rewrite advance_n_spec.
    destruct w; cbn. split; intros ->; reflexivity.
Qed.

Lemma counters_seed_and_advance_witness :
  check_user (owner "T minus {decrement, 1}") = true
  /\ 0 <= 1
  /\ Str.forallb Char.is_space " " = true
  /\ exists w1,
      set_message (owner "T minus {decrement, 1}") chat42 initial_world
      = Returned SET_TIME w1
      /\ decrement_counter w1 = Some 1
      /\ exists wN,
          update_counters_n 3 w1 = Returned tt wN
          /\ decrement_counter wN = Some (-2).
Proof.
  split; [reflexivity|]. split; [lia|]. split; [reflexivity|].
  exact (proj1 (proj2 (counters_seed_and_advance
                         (owner "T minus {decrement, 1}") chat42
                         initial_world "T minus " " " "" 1 3
                         eq_refl (Z.le_0_1) eq_refl))
           eq_refl eq_refl).
Defined.

(** * Rendering *)

(** A piece of text that starts with an opening brace, has no other, and
    is no match of the pattern passes through its substitution. *)
Lemma sub_passes_over (l repl pre m' post : string) :
  brace_free l = true ->
  brace_free m' = true ->
  Re.match_here (String "{" l) (String "{" m' ++ post) = None ->
  Re.sub (String "{" l) repl (pre ++ String "{" m' ++ post)
  = Re.sub (String "{" l) repl pre ++ String "{" m'
    ++ Re.sub (String "{" l) repl post.
Proof.
  intros Hl Hm Hno.
  change (String "{" m' ++ post) with (String "{" (m' ++ post)) in *.
  rewrite (sub_split_at_brace l Hl), sub_eq, Hno.
  now rewrite (sub_brace_free l).
Qed.

Lemma sub_increment_over_decrement (repl pre m post : string) :
  occurrence DECREMENT m ->
  Re.sub INCREMENT repl (pre ++ m ++ post)
  = Re.sub INCREMENT repl pre ++ m ++ Re.sub INCREMENT repl post.
Proof.
  intros Hm.
  destruct (occurrence_shape "decrement," eq_refl m Hm) as (m' & -> & Hm').
  apply (sub_passes_over "increment,"); [reflexivity | exact Hm' |].
  destruct Hm as [g Hg].
  apply match_here_sound in Hg as (ws & E & _). rewrite E. reflexivity.
Qed.

Lemma sub_decrement_over_increment (repl pre m post : string) :
  occurrence INCREMENT m ->
  Re.sub DECREMENT repl (pre ++ m ++ post)
  = Re.sub DECREMENT repl pre ++ m ++ Re.sub DECREMENT repl post.
Proof.
  intros Hm.
  destruct (occurrence_shape "increment," eq_refl m Hm) as (m' & -> & Hm').
  apply (sub_passes_over "decrement,"); [reflexivity | exact Hm' |].
  destruct Hm as [g Hg].
  apply match_here_sound in Hg as (ws & E & _). rewrite E. reflexivity.
Qed.

Lemma occurs_false_sub (lit repl s : string) :
  Re.occurs lit s = false -> Re.sub lit repl s = s.
Proof.
  unfold Re.occurs. intros H. apply search_none_sub.
  now destruct (Re.search lit s).
Qed.

(** C7, as the code has it: [parse_custom_message] changes nothing and
    its result depends on the template and the two counters only; a
    template without a match of either pattern is returned as it is; the
    occurrences of a pattern whose counter is [None] stay as they are;
    every occurrence of the decrement pattern is replaced by an active
    decrement counter, and every occurrence of the increment pattern by an
    active increment counter before the decrement pattern is looked for,
    so that with both counters active the decrement substitution runs over
    the inserted increment values too. *)
Theorem render_properties :
  (forall (template : string) (w : world),
      parse_custom_message template w
      = Returned
          (render template (increment_counter w) (decrement_counter w)) w)
  /\ (forall (t : string) (i d : option Z),
         Re.occurs INCREMENT t = false -> Re.occurs DECREMENT t = false ->
         render t i d = t)
  /\ (forall (pre m post : string) (d : option Z),
         occurrence INCREMENT m ->
         render (pre ++ m ++ post) None d
         = render pre None d ++ m ++ render post None d)
  /\ (forall (pre m post : string) (i : option Z),
         occurrence DECREMENT m ->
         render (pre ++ m ++ post) i None
         = render pre i None ++ m ++ render post i None)
  /\ (forall (pre m post : string) (i : option Z) (d : Z),
         occurrence DECREMENT m ->
         render (pre ++ m ++ post) i (Some d)
         = render pre i (Some d) ++ PyInt.str d ++ render post i (Some d))
  /\ (forall (pre m post : string) (i : Z),
         occurrence INCREMENT m ->
         render (pre ++ m ++ post) (Some i) None
         = render pre (Some i) None ++ PyInt.str i
           ++ render post (Some i) None)
  /\ (forall (pre m post : string) (i d : Z),
         occurrence INCREMENT m ->
         render (pre ++ m ++ post) (Some i) (Some d)
         = Re.sub DECREMENT (PyInt.str d)
             (Re.sub INCREMENT (PyInt.str i) pre ++ PyInt.str i
              ++ Re.sub INCREMENT (PyInt.str i) post)).
Proof.
  split; [exact parse_custom_message_spec|].
  split.
  { intros t i d Hi Hd. unfold render.
    destruct i as [i|]; [rewrite (occurs_false_sub _ _ _ Hi)|];
      (destruct d as [d|]; [now rewrite (occurs_false_sub _ _ _ Hd)|reflexivity]). }
  split.
  { intros pre m post [d|] Hm; unfold render; [|reflexivity].
    now apply sub_decrement_over_increment. }
  split.
  { intros pre m post [i|] Hm; unfold render; [|reflexivity].
    now apply sub_increment_over_decrement. }
  split.
  { intros pre m post i d Hm. unfold render.
    destruct i as [i|].
    - rewrite (sub_increment_over_decrement _ pre m post Hm).
      now apply (sub_occurrence "decrement,").
    - now apply (sub_occurrence "decrement,"). }
  split.
  { intros pre m post i Hm. unfold render.
    now apply (sub_occurrence "increment,"). }
  intros pre m post i d Hm. unfold render.
  now rewrite (sub_occurrence "increment," eq_refl _ pre m post Hm).
Qed.

Lemma render_properties_witness :
  occurrence DECREMENT "{decrement,  30}"
  /\ render ("In " ++ "{decrement,  30}" ++ " days, day {increment, 1}")
       (Some 2) (Some 29)
     = render "In " (Some 2) (Some 29) ++ PyInt.str 29
       ++ render " days, day {increment, 1}" (Some 2) (Some 29).
Proof.
  assert (Hm : occurrence DECREMENT "{decrement,  30}")
    by (exists "30"; reflexivity).
  split; [exact Hm|].
  exact (proj1 (proj2 (proj2 (proj2 (proj2 render_properties))))
           "In " "{decrement,  30}" " days, day {increment, 1}"
           (Some 2) 29 Hm).
Defined.

(** C7 as stated fails for an increment placeholder that stands where a
    decrement placeholder expects its number: with both counters active
    the inserted increment value completes the decrement pattern and is
    replaced with it, so the increment value does not reach the output. *)
Lemma render_nested_placeholder :
  occurrence INCREMENT "{increment, 1}"
  /\ render ("{decrement, " ++ "{increment, 1}" ++ "}") (Some 7) (Some 3) = "3"
  /\ render "{decrement, " (Some 7) (Some 3) ++ PyInt.str 7
     ++ render "}" (Some 7) (Some 3) = "{decrement, 7}"
  /\ render ("{decrement, " ++ "{increment, 1}" ++ "}") (Some 7) (Some 3)
     <> render "{decrement, " (Some 7) (Some 3) ++ PyInt.str 7
        ++ render "}" (Some 7) (Some 3).
Proof.
  split; [exists "1"; reflexivity|].
  split; [reflexivity|]. split; [reflexivity|]. discriminate.
Qed.

(** * Entering the time *)

(** What [set_time] does for the allow-listed user, case by case. *)
Lemma set_time_spec (u : Update) (context : Context) (w : world) :
  check_user u = true ->
  set_time u context w
  = match parse_time (text u) with
    | None =>
        Returned SET_TIME
          (with_event (ReplyText (effective_chat u) INVALID_TIME) w)
    | Some (h, m) =>
        if fits_c_int h && fits_c_int m then
          if valid_time h m then
            Returned CONFIRM
              (with_event
                 (ReplyText (effective_chat u)
                    (preview_text h m
                       (render (message_template w) (increment_counter w)
                          (decrement_counter w))))
                 (with_message_time (Some {| hour := h; minute := m |}) w))
          else
            Returned SET_TIME
              (with_event (ReplyText (effective_chat u) INVALID_TIME) w)
        else Raised OverflowError w
    end.
Proof.
  intros H. unfold set_time. rewrite H. cbn [negb].
  unfold parse_time, valid_time, try_except_ValueError, unpack2_int, int,
    time_new, bind, ret, raise.
  destruct (Str.split ":" (text u)) as [|a [|b [|c fs]]]; try reflexivity.
  destruct (PyInt.int a) as [h|]; [|reflexivity].
  destruct (PyInt.int b) as [m|]; [|reflexivity].
  cbn [fst snd].
  destruct (fits_c_int h && fits_c_int m); [|reflexivity].
  destruct ((0 <=? h) && (h <=? 23) && (0 <=? m) && (m <=? 59));
    [|reflexivity].
  unfold modify, gets. rewrite parse_custom_message_spec. 
  now destruct w.
Qed.

(** X4: a text that reads as a time of day is accepted: the time is recorded,
    the preview shows the template rendered with the current counters,
    and the conversation moves on to the confirmation. *)
Lemma set_time_accepts (u : Update) (context : Context) (w : world) (h m : Z) :
  check_user u = true ->
  parse_time (text u) = Some (h, m) ->
  0 <= h <= 23 -> 0 <= m <= 59 ->
  set_time u context w
  = Returned CONFIRM
      (with_event
         (ReplyText (effective_chat u)
            (preview_text h m
               (render (message_template w) (increment_counter w)
                  (decrement_counter w))))
         (with_message_time (Some {| hour := h; minute := m |}) w)).
Proof.
  intros H Hp Hh Hm. rewrite (set_time_spec u context w H), Hp.
  replace (fits_c_int h && fits_c_int m) with true
    by (unfold fits_c_int; symmetry; rewrite !andb_true_iff, !Z.leb_le; lia).
  replace (valid_time h m) with true
    by (unfold valid_time; symmetry; rewrite !andb_true_iff, !Z.leb_le; lia).
  reflexivity.
Qed.

(** X5: a text that does not read as a time of day, with numbers that
    fit a C [int] if it has numbers at all, is answered by a new prompt in
    the same state, and nothing else changes. *)
Lemma set_time_reprompts (u : Update) (context : Context) (w : world) :
  check_user u = true ->
  (parse_time (text u) = None
   \/ exists h m,
       parse_time (text u) = Some (h, m)
       /\ fits_c_int h && fits_c_int m = true
       /\ valid_time h m = false) ->
  set_time u context w
  = Returned SET_TIME
      (with_event (ReplyText (effective_chat u) INVALID_TIME) w).
Proof.
  intros H Hp. rewrite (set_time_spec u context w H).
  destruct Hp as [-> | (h & m & -> & -> & ->)]; reflexivity.
Qed.

Example set_time_14_30 :
  set_time (owner "14:30") chat42 initial_world
  = Returned CONFIRM
      (with_event (ReplyText 42 (preview_text 14 30 ""))
         (with_message_time (Some {| hour := 14; minute := 30 |})
            initial_world)).
Proof. reflexivity. Qed.

Example set_time_99_99 :
  set_time (owner "99:99") chat42 initial_world
  = Returned SET_TIME (with_event (ReplyText 42 INVALID_TIME) initial_world).
Proof. reflexivity. Qed.

(** C6 at the input ["2147483648:00"]: both fields are integer literals,
    the hour is no hour of the day, and it does not fit a C [int].  The
    constructor of [time] raises [OverflowError], which the handler's
    [except ValueError] does not catch: the handler raises, nothing is
    answered and nothing is recorded. *)
Theorem set_time_overflow_escapes :
  forall (context : Context) (w : world),
    parse_time "2147483648:00" = Some (2147483648, 0)
    /\ valid_time 2147483648 0 = false
    /\ set_time (owner "2147483648:00") context w = Raised OverflowError w.
Proof.
  intros context w. split; [reflexivity|]. split; [reflexivity|].
  now rewrite (set_time_spec (owner "2147483648:00") context w eq_refl).
Qed.

(** * Confirming *)

(** What [confirm] does for the allow-listed user, case by case. *)
Lemma confirm_spec (u : Update) (context : Context) (w : world) :
  check_user u = true ->
  confirm u context w
  = if String.eqb (Str.lower (text u)) "yes" then
      let q := without_job (scheduled_job w) (job_queue w) in
      match message_time w with
      | Some t =>
          Returned END
            (with_event (ReplyText (effective_chat u) SET_UP)
               (with_scheduled_job (Some (new_job u t w))
                  (with_job_queue (q ++ [new_job u t w])
                     (S (next_job_id w)) w)))
      | None => Raised AttributeError (with_job_queue q (next_job_id w) w)
      end
    else if String.eqb (Str.lower (text u)) "no" then
      Returned SET_MESSAGE
        (with_event
           (ReplyText (effective_chat u)
              "Let's start over. Please enter your custom message.")
           w)
    else
      Returned CONFIRM
        (with_event
           (ReplyText (effective_chat u) "Please respond with 'Yes' or 'No'.")
           w).
Proof.
  intros H. unfold confirm. rewrite H. cbn [negb].
  destruct (String.eqb (Str.lower (text u)) "yes");
    [|destruct (String.eqb (Str.lower (text u)) "no"); reflexivity].
  destruct w as [[j|] t [mt|] i d q n o]; reflexivity.
Qed.

(** * What each entry point leaves alone *)

(** Only [set_message] and a firing write the template or a counter. *)
Lemma entry_point_keeps_active_state
  (e : entry_point) (u : Update) (context : Context) (w : world) :
  e <> EP_set_message -> e <> EP_trigger_job ->
  active_state (final (call e u context w)) = active_state w.
Proof.
  intros He1 He2.
  destruct (check_user u) eqn:H.
  - destruct e; try congruence; unfold call, bind.
    + unfold create_scheduled_message. rewrite H. reflexivity.
    + rewrite (set_time_spec u context w H).
      destruct (parse_time (text u)) as [[h m]|]; [|reflexivity].
      destruct (fits_c_int h && fits_c_int m); [|reflexivity].
      destruct (valid_time h m); reflexivity.
    + rewrite (confirm_spec u context w H).
      destruct (String.eqb (Str.lower (text u)) "yes").
      * cbv zeta. destruct (message_time w); reflexivity.
      * destruct (String.eqb (Str.lower (text u)) "no"); reflexivity.
    + unfold stop_scheduled_message. rewrite H. cbn [negb].
      unfold bind, gets. destruct (scheduled_job w); reflexivity.
    + unfold cancel. rewrite H. reflexivity.
  - now rewrite (call_rejects e u context w H).
Qed.

(** C1, as the code has it: there is one template and one pair of
    counters, and [set_message] writes them at once, before any
    confirmation; every other entry point but [trigger_job], whoever
    calls it and whatever it answers, leaves them as they are; a
    confirmation with yes changes the job handle and the queue only. *)
Theorem active_state_written_by_set_message
  (u : Update) (context : Context) (w : world) (H : check_user u = true) :
  active_state (final (set_message u context w))
  = (text u,
     seeded INCREMENT (text u) (increment_counter w),
     seeded DECREMENT (text u) (decrement_counter w))
  /\ (forall (e : entry_point) (u' : Update) (context' : Context),
         e <> EP_set_message -> e <> EP_trigger_job ->
         active_state (final (call e u' context' w)) = active_state w)
  /\ (forall t : time,
         message_time w = Some t ->
         String.eqb (Str.lower (text u)) "yes" = true ->
         exists w',
           confirm u context w = Returned END w'
           /\ active_state w' = active_state w
           /\ message_time w' = message_time w
           /\ scheduled_job w' = Some (new_job u t w)).
Proof.
  split; [|split].
  - rewrite (set_message_spec u context w H). now destruct w.
  - intros e u' context'. apply entry_point_keeps_active_state.
  - intros t Ht Hyes. rewrite (confirm_spec u context w H), Hyes, Ht.
    cbv zeta. eexists. split; [reflexivity|]. now repeat split.
Qed.

Lemma active_state_written_by_set_message_witness :
  check_user (owner "Bye {increment, 7}") = true
  /\ active_state
       (final (set_message (owner "Bye {increment, 7}") chat42
                 (final (day_setup initial_world))))
     = ("Bye {increment, 7}", Some 7, None).
Proof.
  split; [reflexivity|].
  refine (eq_trans
            (proj1 (active_state_written_by_set_message
                      (owner "Bye {increment, 7}") chat42
                      (final (day_setup initial_world)) eq_refl)) _).
  vm_compute. reflexivity.
Defined.

(** C1 as stated fails: with a job installed for ["Day {increment, 1}"],
    the message step of a new conversation replaces the template and the
    counter that the installed job uses, and the job's next firing sends
    the new text although nothing was confirmed. *)
Lemma set_message_overwrites_active_state :
  let w0 := final (day_setup initial_world) in
  let j0 := {| job_id := 0; job_time := {| hour := 9; minute := 0 |};
               chat_id := 42 |} in
  let w1 := final (set_message (owner "Bye {increment, 7}") chat42 w0) in
  scheduled_job w0 = Some j0
  /\ In j0 (job_queue w1)
  /\ active_state w0 = ("Day {increment, 1}", Some 1, None)
  /\ active_state w1 = ("Bye {increment, 7}", Some 7, None)
  /\ active_state w1 <> active_state w0
  /\ outbox (final (send_scheduled_message (job_context j0) w1))
     = (outbox w1 ++ [SendMessage 42 "Bye 8"])%list.
Proof.
  cbv zeta. split; [vm_compute; reflexivity|].
  split; [vm_compute; left; reflexivity|].
  split; [vm_compute; reflexivity|]. split; [vm_compute; reflexivity|].
  split; [vm_compute; discriminate|].
  vm_compute. reflexivity.
Qed.

(** * The job queue *)

Lemma job_invariant_ext (w w' : world) :
  scheduled_job w' = scheduled_job w ->
  job_queue w' = job_queue w ->
  message_time w' = message_time w ->
  job_invariant w -> job_invariant w'.
Proof. unfold job_invariant. now intros -> -> ->. Qed.

Lemma job_invariant_queue (w : world) :
  job_invariant w ->
  without_job (scheduled_job w) (job_queue w) = [].
Proof.
  intros [Hq _]. rewrite Hq. destruct (scheduled_job w) as [j|]; cbn;
    [now rewrite Nat.eqb_refl | reflexivity].
Qed.

Lemma call_keeps_job_invariant
  (e : entry_point) (u : Update) (context : Context) (w : world) :
  job_invariant w -> job_invariant (final (call e u context w)).
Proof.
  intros Hinv. destruct (check_user u) eqn:H.
  - destruct e; unfold call, bind.
    + unfold create_scheduled_message. rewrite H.
      revert Hinv. now apply job_invariant_ext.
    + rewrite (set_message_spec u context w H).
      revert Hinv. now apply job_invariant_ext.
    + rewrite (set_time_spec u context w H).
      destruct (parse_time (text u)) as [[h m]|]; [|exact Hinv].
      destruct (fits_c_int h && fits_c_int m); [|exact Hinv].
      destruct (valid_time h m); [|exact Hinv].
      destruct Hinv as [Hq _]. split; [exact Hq | discriminate].
    + rewrite (confirm_spec u context w H).
      destruct (String.eqb (Str.lower (text u)) "yes").
      * cbv zeta. rewrite (job_invariant_queue w Hinv).
        destruct (message_time w) as [t|] eqn:Ht.
        -- split; cbn; [reflexivity | now rewrite Ht].
        -- destruct Hinv as [Hq Hmt].
           destruct (scheduled_job w) as [j|] eqn:Hj;
             [exfalso; now apply Hmt|].
           split; cbn; [now rewrite Hj | now rewrite Hj].
      * destruct (String.eqb (Str.lower (text u)) "no"); exact Hinv.
    + unfold stop_scheduled_message. rewrite H. cbn [negb].
      unfold bind, gets.
      pose proof (job_invariant_queue w Hinv) as Hq.
      destruct (scheduled_job w) as [j|] eqn:Hj; [|exact Hinv].
      cbn in Hq |- *. split; cbn; [exact Hq | congruence].
    + unfold trigger_job. rewrite H. cbn [negb]. unfold bind.
      rewrite send_scheduled_message_spec.
      revert Hinv. now apply job_invariant_ext.
    + unfold cancel. rewrite H. exact Hinv.
  - rewrite (call_rejects e u context w H). exact Hinv.
Qed.

Lemma reachable_job_invariant (w : world) :
  reachable w -> job_invariant w.
Proof.
  induction 1 as [|w w' _ IH Hstep].
  - split; [reflexivity | intros Hc; now elim Hc].
  - destruct Hstep as [e u w | j w Hin].
    + now apply call_keeps_job_invariant.
    + rewrite send_scheduled_message_spec.
      revert IH. now apply job_invariant_ext.
Qed.

(** C5: in every world the process can reach, the queue holds at most one
    job, the one behind [scheduled_job]; a confirmation with yes removes
    that job before it registers the new one, so that after an install
    the queue holds exactly the new job, with the time entered last and
    the chat of the confirming update; after two installs in a row only
    the second job is left. *)
Theorem at_most_one_job
  (w : world) (u1 u2 : Update) (t : time)
  (Hw : reachable w)
  (H1 : check_user u1 = true) (H2 : check_user u2 = true)
  (Y1 : String.eqb (Str.lower (text u1)) "yes" = true)
  (Y2 : String.eqb (Str.lower (text u2)) "yes" = true)
  (Ht : message_time w = Some t) :
  job_invariant w
  /\ (List.length (job_queue w) <= 1)%nat
  /\ (exists w1 j1,
         confirm u1 (update_context u1) w = Returned END w1
         /\ job_queue w1 = [j1] /\ scheduled_job w1 = Some j1
         /\ job_time j1 = t /\ chat_id j1 = effective_chat u1
         /\ exists w2 j2,
             confirm u2 (update_context u2) w1 = Returned END w2
             /\ job_queue w2 = [j2] /\ scheduled_job w2 = Some j2
             /\ job_time j2 = t /\ chat_id j2 = effective_chat u2
             /\ job_id j2 <> job_id j1
             /\ ~ In j1 (job_queue w2)).
Proof.
  pose proof (reachable_job_invariant w Hw) as Hinv.
  split; [exact Hinv|]. split.
  { destruct Hinv as [-> _]. destruct (scheduled_job w); cbn; lia. }
  pose proof (confirm_spec u1 (update_context u1) w H1) as E1.
  rewrite Y1, Ht in E1. cbv zeta in E1.
  rewrite (job_invariant_queue w Hinv) in E1. cbn [app] in E1.
  eexists. exists (new_job u1 t w). split; [exact E1|].
  split; [reflexivity|]. split; [reflexivity|].
  split; [reflexivity|]. split; [reflexivity|].
  match type of E1 with _ = Returned END ?x => set (w1 := x) in * end.
  assert (Hw1 : reachable w1).
  { apply (reachable_step w w1 Hw).
    replace w1 with (final (call EP_confirm u1 (update_context u1) w))
      by (unfold call, bind; now rewrite E1).
    constructor. }
  pose proof (reachable_job_invariant w1 Hw1) as Hinv1.
  pose proof (confirm_spec u2 (update_context u2) w1 H2) as E2.
  rewrite Y2 in E2. cbv zeta in E2.
  rewrite (job_invariant_queue w1 Hinv1) in E2.
  assert (Ht1 : message_time w1 = Some t) by (subst w1; cbn; exact Ht).
  rewrite Ht1 in E2. cbn [app] in E2.
  eexists. exists (new_job u2 t w1). split; [exact E2|].
  split; [reflexivity|]. split; [reflexivity|].
  split; [reflexivity|]. split; [reflexivity|].
  assert (Hid : job_id (new_job u2 t w1) <> job_id (new_job u1 t w))
    by (subst w1; cbn; lia).
  split; [exact Hid|].
  cbn. intros [E|[]]. apply Hid. now rewrite E.
Qed.

Lemma at_most_one_job_witness :
  let w := final (set_time (owner "09:00") chat42 initial_world) in
  reachable w
  /\ check_user (owner "yes") = true
  /\ check_user (owner "YES") = true
  /\ String.eqb (Str.lower (text (owner "yes"))) "yes" = true
  /\ String.eqb (Str.lower (text (owner "YES"))) "yes" = true
  /\ message_time w = Some {| hour := 9; minute := 0 |}
  /\ job_invariant w
  /\ (List.length (job_queue w) <= 1)%nat.
Proof.
  cbv zeta.
  assert (Hw : reachable (final (set_time (owner "09:00") chat42 initial_world))).
  { apply (reachable_step initial_world); [constructor|].
    exact (step_update EP_set_time (owner "09:00") initial_world). }
  split; [exact Hw|]. split; [reflexivity|]. split; [reflexivity|].
  split; [reflexivity|]. split; [reflexivity|]. split; [reflexivity|].
  pose proof (at_most_one_job
                (final (set_time (owner "09:00") chat42 initial_world))
                (owner "yes") (owner "YES") {| hour := 9; minute := 0 |}
                Hw eq_refl eq_refl eq_refl eq_refl eq_refl) as T.
  split; [exact (proj1 T) | exact (proj1 (proj2 T))].
Defined.

(** * Beyond the claims: templates written the usual way *)

Lemma sub_brace_free_id (l repl a : string) :
  brace_free a = true -> Re.sub (String "{" l) repl a = a.
Proof.
  intros Ha. rewrite <- (append_nil_r a) at 1.
  now rewrite (sub_brace_free l repl a "" Ha), sub_nil, append_nil_r.
Qed.

Lemma search_brace_free (l a : string) :
  brace_free a = true -> Re.search (String "{" l) a = None.
Proof.
  induction a as [|x a IH]; intros Ha; [reflexivity|].
  simpl in Ha. apply andb_true_iff in Ha as [Hx Ha].
  rewrite search_eq, (match_here_no_brace l x a Hx). now apply IH.
Qed.

Lemma brace_free_app (a b : string) :
  brace_free (a ++ b) = brace_free a && brace_free b.
Proof. apply forallb_app. Qed.

Lemma str_brace_free (z : Z) : brace_free (PyInt.str z) = true.
Proof.
  destruct z as [|p|p]; [reflexivity|..];
    unfold PyInt.str; cbn [Z.to_int NilZero.string_of_int];
    pose proof (DecimalPos.Unsigned.to_uint_nonnil p) as Hnn;
    destruct (string_of_uint_nonnil _ Hnn) as [-> _].
  - exact (forallb_impl _ _ _ digit_not_open_brace (string_of_uint_digits _)).
  - cbn [brace_free Str.forallb].
    change (not_open_brace "-") with true. cbn [andb].
    exact (forallb_impl _ _ _ digit_not_open_brace (string_of_uint_digits _)).
Qed.

Lemma placeholder_occurrence (lit ws : string) (k : Z) :
  0 <= k -> Str.forallb Char.is_space ws = true ->
  occurrence lit (placeholder lit ws k).
Proof.
  intros Hk Hws. destruct (str_nonneg_digits k Hk) as [Hg Hne].
  exists (PyInt.str k). unfold placeholder.
  now apply match_here_complete.
Qed.

(** A template with one increment placeholder and no other opening brace
    renders to the text around the placeholder with the counter in its
    place, whatever the decrement counter is. *)
Lemma render_single_increment
  (p0 ws p1 : string) (k i : Z) (d : option Z) :
  0 <= k -> Str.forallb Char.is_space ws = true ->
  brace_free p0 = true -> brace_free p1 = true ->
  render (p0 ++ placeholder INCREMENT ws k ++ p1) (Some i) d
  = p0 ++ PyInt.str i ++ p1.
Proof.
  intros Hk Hws H0 H1. unfold render.
  rewrite (sub_occurrence "increment," eq_refl _ p0 _ p1
             (placeholder_occurrence INCREMENT ws k Hk Hws)).
  rewrite !(sub_brace_free_id "increment,") by assumption.
  destruct d as [d|]; [|reflexivity].
  apply (sub_brace_free_id "decrement,").
  now rewrite !brace_free_app, H0, H1, str_brace_free.
Qed.

(** The same with an increment placeholder followed by a decrement
    placeholder. *)
Lemma render_increment_decrement
  (p0 ws1 p1 ws2 p2 : string) (a b i d : Z) :
  0 <= a -> 0 <= b ->
  Str.forallb Char.is_space ws1 = true ->
  Str.forallb Char.is_space ws2 = true ->
  brace_free p0 = true -> brace_free p1 = true -> brace_free p2 = true ->
  render (p0 ++ placeholder INCREMENT ws1 a ++ p1
          ++ placeholder DECREMENT ws2 b ++ p2) (Some i) (Some d)
  = p0 ++ PyInt.str i ++ p1 ++ PyInt.str d ++ p2.
Proof.
  intros Ha Hb Hw1 Hw2 H0 H1 H2. unfold render.
  pose proof (placeholder_occurrence INCREMENT ws1 a Ha Hw1) as OI.
  pose proof (placeholder_occurrence DECREMENT ws2 b Hb Hw2) as OD.
  rewrite (sub_occurrence "increment," eq_refl _ p0 _ _ OI).
  rewrite (sub_increment_over_decrement _ p1 _ p2 OD).
  rewrite !(sub_brace_free_id "increment,") by assumption.
  replace (p0 ++ PyInt.str i ++ p1 ++ placeholder DECREMENT ws2 b ++ p2)
    with ((p0 ++ PyInt.str i ++ p1) ++ placeholder DECREMENT ws2 b ++ p2)
    by (now rewrite !append_assoc).
  rewrite (sub_occurrence "decrement," eq_refl _ _ _ p2 OD).
  rewrite !(sub_brace_free_id "decrement,");
    [now rewrite !append_assoc | assumption |].
  now rewrite !brace_free_app, H0, H1, str_brace_free.
Qed.

(** What [set_message] reads from such templates. *)
Lemma search_placeholder (l p0 ws rest : string) (k : Z) :
  brace_free l = true ->
  0 <= k -> Str.forallb Char.is_space ws = true ->
  brace_free p0 = true ->
  Re.search (String "{" l) (p0 ++ placeholder (String "{" l) ws k ++ rest)
  = Some (PyInt.str k).
Proof.
  intros Hl Hk Hws H0. destruct (str_nonneg_digits k Hk) as [Hg Hne].
  unfold placeholder. rewrite !append_assoc.
  change ("}" ++ rest) with (String "}" rest).
  apply search_first_occurrence; try assumption.
  unfold Re.occurs. now rewrite search_brace_free.
Qed.

Lemma search_decrement_behind_increment
  (p0 ws1 p1 ws2 rest : string) (a b : Z) :
  0 <= a -> 0 <= b ->
  Str.forallb Char.is_space ws1 = true ->
  Str.forallb Char.is_space ws2 = true ->
  brace_free p0 = true -> brace_free p1 = true ->
  Re.search DECREMENT
    (p0 ++ placeholder INCREMENT ws1 a ++ p1
     ++ placeholder DECREMENT ws2 b ++ rest)
  = Some (PyInt.str b).
Proof.
  intros Ha Hb Hw1 Hw2 H0 H1.
  destruct (occurrence_shape "increment," eq_refl _
              (placeholder_occurrence INCREMENT ws1 a Ha Hw1))
    as (m' & Em & Hm').
  assert (Hno : Re.match_here DECREMENT
                  (placeholder INCREMENT ws1 a ++ p1
                   ++ placeholder DECREMENT ws2 b ++ rest) = None)
    by reflexivity.
  rewrite Em in *. unfold DECREMENT in *.
  change (String "{" m' ++ p1 ++ placeholder "{decrement," ws2 b ++ rest)
    with (String "{" (m' ++ p1 ++ placeholder "{decrement," ws2 b ++ rest)) in *.
  rewrite (search_split_at_brace "decrement," eq_refl).
  rewrite (search_brace_free "decrement," p0 H0).
  rewrite search_eq, Hno.
  replace (m' ++ p1 ++ placeholder "{decrement," ws2 b ++ rest)
    with ((m' ++ p1) ++ placeholder "{decrement," ws2 b ++ rest)
    by (now rewrite !append_assoc).
  apply (search_placeholder "decrement," _ _ _ _ eq_refl); try assumption.
  now rewrite brace_free_app, Hm', H1.
Qed.

(** [n] firings: the counters move [n] times and the log gains, in order,
    the template rendered with the counters after 1, 2, ..., [n] moves. *)
Lemma fire_n_spec (context : Context) (n : nat) (w : world) :
  exists w',
    fire_n context n w = Returned tt w'
    /\ counters w' = advance_n n (counters w)
    /\ message_template w' = message_template w
    /\ outbox w' =
         (outbox w ++
          map (fun j =>
                 SendMessage (target context)
                   (render (message_template w)
                      (fst (advance_n j (counters w)))
                      (snd (advance_n j (counters w)))))
            (seq 1 n))%list
    /\ scheduled_job w' = scheduled_job w
    /\ job_queue w' = job_queue w
    /\ message_time w' = message_time w.
Proof.
  revert w. induction n as [|n IH]; intros w.
  - exists w. cbn. rewrite app_nil_r. now repeat split.
  - cbn [fire_n]. unfold bind. rewrite send_scheduled_message_spec.
    destruct (IH (fired context w)) as (w' & E & Hc & Ht & Ho & Hj & Hq & Hm).
    exists w'. split; [exact E|].
    assert (Hcf : counters (fired context w) = advance (counters w))
      by now destruct w.
    assert (Htf : message_template (fired context w) = message_template w)
      by now destruct w.
    rewrite Hcf in Hc, Ho. rewrite Htf in Ht, Ho.
    split; [exact Hc|]. split; [exact Ht|].
    split.
    { rewrite Ho. cbn [seq map]. rewrite <- (seq_shift n 1), map_map.
      destruct w; cbn. now rewrite <- app_assoc. }
    rewrite Hj, Hq, Hm. now destruct w.
Qed.

(** X1: for a template with one increment placeholder [{increment, k}]
    and no other opening brace, after [set_message] the firings number
    1, 2, ..., [n] deliver the surrounding text with [k+1], [k+2], ...,
    [k+n] in place of the placeholder, whatever the decrement counter was
    before. *)
Theorem firings_count_up
  (u : Update) (context fc : Context) (w : world)
  (p0 ws p1 : string) (k : Z) (n : nat)
  (H : check_user u = true) (Hk : 0 <= k)
  (Hws : Str.forallb Char.is_space ws = true)
  (H0 : brace_free p0 = true) (H1 : brace_free p1 = true)
  (Ht : text u = p0 ++ placeholder INCREMENT ws k ++ p1) :
  exists w1 wn,
    set_message u context w = Returned SET_TIME w1
    /\ fire_n fc n w1 = Returned tt wn
    /\ outbox wn =
         (outbox w1 ++
          map (fun j => SendMessage (target fc) (p0 ++ PyInt.str (k + j) ++ p1))
            (upto n))%list
    /\ increment_counter wn = Some (k + Z.of_nat n).
Proof.
  pose proof (set_message_spec u context w H) as E1.
  assert (Si : seeded INCREMENT (text u) (increment_counter w) = Some k).
  { unfold seeded. rewrite Ht.
    rewrite (search_placeholder "increment," _ _ _ _ eq_refl Hk Hws H0).
    apply int_str. }
  rewrite Si in E1.
  match type of E1 with _ = Returned _ ?x => set (w1 := x) in * end.
  destruct (fire_n_spec fc n w1) as (wn & En & Hc & _ & Ho & _).
  exists w1, wn. split; [exact E1|]. split; [exact En|].
  assert (Hc1 : counters w1
                = (Some k, seeded DECREMENT (text u) (decrement_counter w)))
    by (subst w1; now destruct w).
  assert (Ht1 : message_template w1 = text u) by (subst w1; now destruct w).
  rewrite Hc1 in Hc, Ho. rewrite Ht1, Ht in Ho. split.
  - rewrite Ho. unfold upto. rewrite map_map. f_equal.
    apply map_ext. intros j. rewrite advance_n_spec. cbn [fst snd option_map].
    now rewrite (render_single_increment p0 ws p1 k _ _ Hk Hws H0 H1).
  - rewrite advance_n_spec in Hc. unfold counters in Hc. now inversion Hc.
Qed.

Lemma firings_count_up_witness :
  check_user (owner "Day {increment, 1}!") = true
  /\ 0 <= 1
  /\ Str.forallb Char.is_space " " = true
  /\ brace_free "Day " = true /\ brace_free "!" = true
  /\ exists w1 wn,
      set_message (owner "Day {increment, 1}!") chat42 initial_world
      = Returned SET_TIME w1
      /\ fire_n chat42 3 w1 = Returned tt wn
      /\ outbox wn =
           (outbox w1 ++
            map (fun j => SendMessage 42 ("Day " ++ PyInt.str (1 + j) ++ "!"))
              (upto 3))%list
      /\ increment_counter wn = Some 4.
Proof.
  split; [reflexivity|]. split; [lia|]. split; [reflexivity|].
  split; [reflexivity|]. split; [reflexivity|].
  exact (firings_count_up (owner "Day {increment, 1}!") chat42 chat42
           initial_world "Day " " " "!" 1 3
           eq_refl Z.le_0_1 eq_refl eq_refl eq_refl eq_refl).
Defined.

(** X2: for a template with an increment placeholder [{increment, a}]
    followed by a decrement placeholder [{decrement, b}] and no other
    opening brace, firing number [j] delivers the surrounding text with
    [a+j] and [b-j] in the places of the placeholders, and the sum of the
    two counters stays [a+b]. *)
Theorem firings_count_up_and_down
  (u : Update) (context fc : Context) (w : world)
  (p0 ws1 p1 ws2 p2 : string) (a b : Z) (n : nat)
  (H : check_user u = true) (Ha : 0 <= a) (Hb : 0 <= b)
  (Hw1 : Str.forallb Char.is_space ws1 = true)
  (Hw2 : Str.forallb Char.is_space ws2 = true)
  (H0 : brace_free p0 = true) (H1 : brace_free p1 = true)
  (H2 : brace_free p2 = true)
  (Ht : text u = p0 ++ placeholder INCREMENT ws1 a ++ p1
                 ++ placeholder DECREMENT ws2 b ++ p2) :
  exists w1 wn i d,
    set_message u context w = Returned SET_TIME w1
    /\ fire_n fc n w1 = Returned tt wn
    /\ outbox wn =
         (outbox w1 ++
          map (fun j =>
                 SendMessage (target fc)
                   (p0 ++ PyInt.str (a + j) ++ p1 ++ PyInt.str (b - j) ++ p2))
            (upto n))%list
    /\ increment_counter wn = Some i /\ decrement_counter wn = Some d
    /\ i = a + Z.of_nat n /\ d = b - Z.of_nat n /\ i + d = a + b.
Proof.
  pose proof (set_message_spec u context w H) as E1.
  assert (Si : seeded INCREMENT (text u) (increment_counter w) = Some a).
  { unfold seeded. rewrite Ht.
    rewrite (search_placeholder "increment," _ _ _ _ eq_refl Ha Hw1 H0).
    apply int_str. }
  assert (Sd : seeded DECREMENT (text u) (decrement_counter w) = Some b).
  { unfold seeded. rewrite Ht.
    rewrite (search_decrement_behind_increment _ _ _ _ _ _ _ Ha Hb Hw1 Hw2 H0 H1).
    apply int_str. }
  rewrite Si, Sd in E1.
  match type of E1 with _ = Returned _ ?x => set (w1 := x) in * end.
  destruct (fire_n_spec fc n w1) as (wn & En & Hc & _ & Ho & _).
  exists w1, wn, (a + Z.of_nat n), (b - Z.of_nat n).
  split; [exact E1|]. split; [exact En|].
  assert (Hc1 : counters w1 = (Some a, Some b)) by (subst w1; now destruct w).
  assert (Ht1 : message_template w1 = text u) by (subst w1; now destruct w).
  rewrite Hc1 in Hc, Ho. rewrite Ht1, Ht in Ho. split.
  - rewrite Ho. unfold upto. rewrite map_map. f_equal.
    apply map_ext. intros j. rewrite advance_n_spec. cbn [fst snd option_map].
    now rewrite (render_increment_decrement p0 ws1 p1 ws2 p2 a b _ _
                   Ha Hb Hw1 Hw2 H0 H1 H2).
  - rewrite advance_n_spec in Hc. unfold counters in Hc.
    inversion Hc. repeat split; lia.
Qed.

Lemma firings_count_up_and_down_witness :
  check_user (owner "Day {increment, 1}, {decrement,30} left") = true
  /\ 0 <= 1 /\ 0 <= 30
  /\ Str.forallb Char.is_space " " = true
  /\ Str.forallb Char.is_space "" = true
  /\ brace_free "Day " = true /\ brace_free ", " = true
  /\ brace_free " left" = true
  /\ exists w1 wn i d,
      set_message (owner "Day {increment, 1}, {decrement,30} left") chat42
        initial_world
      = Returned SET_TIME w1
      /\ fire_n chat42 2 w1 = Returned tt wn
      /\ outbox wn =
           (outbox w1 ++
            map (fun j =>
                   SendMessage 42
                     ("Day " ++ PyInt.str (1 + j) ++ ", "
                      ++ PyInt.str (30 - j) ++ " left"))
              (upto 2))%list
      /\ increment_counter wn = Some i /\ decrement_counter wn = Some d
      /\ i = 1 + 2 /\ d = 30 - 2 /\ i + d = 1 + 30.
Proof.
  split; [reflexivity|]. split; [lia|]. split; [lia|].
  split; [reflexivity|]. split; [reflexivity|].
  split; [reflexivity|]. split; [reflexivity|]. split; [reflexivity|].
  exact (firings_count_up_and_down
           (owner "Day {increment, 1}, {decrement,30} left") chat42 chat42
           initial_world "Day " " " ", " "" " left" 1 30 2
           eq_refl Z.le_0_1 (Zle_0_pos 30) eq_refl eq_refl eq_refl eq_refl
           eq_refl eq_refl).
Defined.

(** * Beyond the claims: the conversation *)



Lemma set_time_accepts_witness :
  check_user (owner "+7 : 0_5") = true
  /\ parse_time (text (owner "+7 : 0_5")) = Some (7, 5)
  /\ 0 <= 7 <= 23 /\ 0 <= 5 <= 59
  /\ set_time (owner "+7 : 0_5") chat42 initial_world
     = Returned CONFIRM
         (with_event (ReplyText 42 (preview_text 7 5 ""))
            (with_message_time (Some {| hour := 7; minute := 5 |})
               initial_world)).
Proof.
  split; [reflexivity|]. split; [reflexivity|]. split; [lia|]. split; [lia|].
  exact (set_time_accepts (owner "+7 : 0_5") chat42 initial_world 7 5
           eq_refl eq_refl
           (conj (Zle_0_pos 7) (Zle_bool_imp_le 7 23 eq_refl))
           (conj (Zle_0_pos 5) (Zle_bool_imp_le 5 59 eq_refl))).
Defined.

Lemma set_time_reprompts_witness :
  check_user (owner "24:00") = true
  /\ (parse_time (text (owner "24:00")) = None
      \/ exists h m,
          parse_time (text (owner "24:00")) = Some (h, m)
          /\ fits_c_int h && fits_c_int m = true
          /\ valid_time h m = false)
  /\ set_time (owner "24:00") chat42 initial_world
     = Returned SET_TIME (with_event (ReplyText 42 INVALID_TIME) initial_world).
Proof.
  assert (Hp : parse_time (text (owner "24:00")) = None
               \/ exists h m,
                   parse_time (text (owner "24:00")) = Some (h, m)
                   /\ fits_c_int h && fits_c_int m = true
                   /\ valid_time h m = false)
    by (right; exists 24, 0; repeat split; reflexivity).
  split; [reflexivity|]. split; [exact Hp|].
  exact (set_time_reprompts (owner "24:00") chat42 initial_world eq_refl Hp).
Defined.



Lemma split_length (c : ascii) (s : string) :
  List.length (Str.split c s) = S (count_char c s).
Proof.
  induction s as [|x r IH]; [reflexivity|].
  cbn [Str.split count_char]. destruct (Ascii.eqb x c).
  - cbn [List.length]. now rewrite IH.
  - destruct (Str.split c r) as [|f fs]; [discriminate IH|].
    cbn [List.length] in *. exact IH.
Qed.

(** X7: a text without a colon, or with two or more colons (such as
    ["1430"] or ["14:30:00"]), is never taken for a time: the
    allow-listed user gets the invalid-format answer, the state stays
    [SET_TIME], nothing is raised and nothing else changes. *)
Theorem set_time_needs_one_colon
  (u : Update) (context : Context) (w : world)
  (H : check_user u = true) (Hc : count_char ":" (text u) <> 1%nat) :
  set_time u context w
  = Returned SET_TIME
      (with_event (ReplyText (effective_chat u) INVALID_TIME) w).
Proof.
  rewrite (set_time_spec u context w H).
  assert (Hp : parse_time (text u) = None).
  { unfold parse_time. pose proof (split_length ":" (text u)) as L.
    destruct (Str.split ":" (text u)) as [|a [|b [|c fs]]]; try reflexivity.
    cbn in L. congruence. }
  now rewrite Hp.
Qed.

Lemma set_time_needs_one_colon_witness :
  check_user (owner "14:30:00") = true
  /\ count_char ":" (text (owner "14:30:00")) <> 1%nat
  /\ set_time (owner "14:30:00") chat42 initial_world
     = Returned SET_TIME (with_event (ReplyText 42 INVALID_TIME) initial_world).
Proof.
  assert (Hc : count_char ":" (text (owner "14:30:00")) <> 1%nat)
    by (vm_compute; discriminate).
  split; [reflexivity|]. split; [exact Hc|].
  exact (set_time_needs_one_colon (owner "14:30:00") chat42 initial_world
           eq_refl Hc).
Defined.

(** * Beyond the claims: what can go wrong, and when *)








(** * Beyond the claims: times of day *)

Lemma time_invariant_ext (w w' : world) :
  scheduled_job w' = scheduled_job w ->
  job_queue w' = job_queue w ->
  message_time w' = message_time w ->
  time_invariant w -> time_invariant w'.
Proof. unfold time_invariant. now intros -> -> ->. Qed.

Lemma without_job_incl (sj : option Job) (q : list Job) (j : Job) :
  In j (without_job sj q) -> In j q.
Proof.
  destruct sj as [k|]; cbn; [|trivial].
  intros Hin. now apply filter_In in Hin.
Qed.

Lemma call_keeps_time_invariant
  (e : entry_point) (u : Update) (context : Context) (w : world) :
  time_invariant w -> time_invariant (final (call e u context w)).
Proof.
  intros Hinv. destruct (check_user u) eqn:H;
    [|rewrite (call_rejects e u context w H); exact Hinv].
  destruct e; unfold call, bind.
  - unfold create_scheduled_message. rewrite H. exact Hinv.
  - rewrite (set_message_spec u context w H).
    revert Hinv. now apply time_invariant_ext.
  - rewrite (set_time_spec u context w H).
    destruct (parse_time (text u)) as [[h m]|]; [|exact Hinv].
    destruct (fits_c_int h && fits_c_int m); [|exact Hinv].
    destruct (valid_time h m) eqn:V; [|exact Hinv].
    destruct Hinv as (_ & Hj & Hq). split; [|split; assumption].
    cbn. intros t Et. inversion Et. exact V.
  - rewrite (confirm_spec u context w H).
    destruct (String.eqb (Str.lower (text u)) "yes");
      [|destruct (String.eqb (Str.lower (text u)) "no"); exact Hinv].
    cbv zeta. destruct Hinv as (Ht & Hj & Hq).
    destruct (message_time w) as [t|] eqn:Et; unfold time_invariant; cbn.
    + pose proof (Ht t eq_refl) as Vt.
      split; [rewrite Et; exact Ht|]. split.
      * intros j Ej. inversion Ej. exact Vt.
      * intros j Hin. apply in_app_or in Hin as [Hin|[<-|[]]]; [|exact Vt].
        apply Hq. now apply (without_job_incl (scheduled_job w)).
    + split; [now rewrite Et|]. split; [exact Hj|].
      intros j Hin. apply Hq. now apply (without_job_incl (scheduled_job w)).
  - unfold stop_scheduled_message. rewrite H. cbn [negb].
    unfold bind, gets. destruct (scheduled_job w) as [k|] eqn:Ek;
      [|exact Hinv].
    destruct Hinv as (Ht & Hj & Hq). unfold time_invariant. cbn.
    split; [exact Ht|]. split; [discriminate|].
    intros j Hin. apply Hq. now apply filter_In in Hin.
  - unfold trigger_job. rewrite H. cbn [negb]. unfold bind.
    rewrite send_scheduled_message_spec.
    revert Hinv. now apply time_invariant_ext.
  - unfold cancel. rewrite H. exact Hinv.
Qed.

(** X10: whatever the process has been through, every time of day it
    holds is a real one: the time entered last, the time of the job
    behind [scheduled_job] and of every job in the queue have an hour
    between 0 and 23 and a minute between 0 and 59. *)
Theorem times_stay_valid (w : world) (Hw : reachable w) :
  (forall t, message_time w = Some t ->
             0 <= hour t <= 23 /\ 0 <= minute t <= 59)
  /\ (forall j, scheduled_job w = Some j \/ In j (job_queue w) ->
                0 <= hour (job_time j) <= 23
                /\ 0 <= minute (job_time j) <= 59).
Proof.
  assert (Hinv : time_invariant w).
  { induction Hw as [|w w' _ IH Hstep].
    - split; [discriminate|]. split; [discriminate | intros j []].
    - destruct Hstep as [e u w | j w Hin].
      + now apply call_keeps_time_invariant.
      + rewrite send_scheduled_message_spec.
        revert IH. now apply time_invariant_ext. }
  assert (V : forall t, valid_time_of t = true ->
                        0 <= hour t <= 23 /\ 0 <= minute t <= 59).
  { intros t. unfold valid_time_of, valid_time.
    rewrite !andb_true_iff, !Z.leb_le. lia. }
  destruct Hinv as (Ht & Hj & Hq). split.
  - intros t Et. apply V. now apply Ht.
  - intros j [Ej|Hin]; apply V; [now apply Hj | now apply Hq].
Qed.

Lemma times_stay_valid_witness :
  reachable (final (day_setup initial_world))
  /\ forall t, message_time (final (day_setup initial_world)) = Some t ->
               0 <= hour t <= 23 /\ 0 <= minute t <= 59.
Proof.
  assert (Hw : reachable (final (day_setup initial_world))).
  { pose (u0 := owner "/create_scheduled_message").
    pose (u1 := owner "Day {increment, 1}").
    pose (u2 := owner "09:00"). pose (u3 := owner "yes").
    pose (w1 := final (call EP_create_scheduled_message u0 (update_context u0)
                         initial_world)).
    pose (w2 := final (call EP_set_message u1 (update_context u1) w1)).
    pose (w3 := final (call EP_set_time u2 (update_context u2) w2)).
    pose (w4 := final (call EP_confirm u3 (update_context u3) w3)).
    assert (R4 : reachable w4).
    { apply (reachable_step w3); [|exact (step_update EP_confirm u3 w3)].
      apply (reachable_step w2); [|exact (step_update EP_set_time u2 w2)].
      apply (reachable_step w1); [|exact (step_update EP_set_message u1 w1)].
      apply (reachable_step initial_world); [constructor|].
      exact (step_update EP_create_scheduled_message u0 initial_world). }
    replace (final (day_setup initial_world)) with w4
      by (vm_compute; reflexivity).
    exact R4. }
  split; [exact Hw|].
  exact (proj1 (times_stay_valid _ Hw)).
Defined.

(** * Beyond the claims: saying yes *)







(** * Beyond the claims: answers and frames *)




(** X13: who can change what.  Only [confirm] and
    [stop_scheduled_message] touch the job handle or the job queue, and
    only [set_time] touches the time entered last; this holds for every
    sender and also when the callback raises.  In particular entering a
    new template or a new time never reschedules or removes the installed
    job, and a manual trigger or a firing changes the counters only. *)
Theorem entry_point_frames
  (e : entry_point) (u : Update) (context : Context) (w : world) :
  (e <> EP_confirm -> e <> EP_stop_scheduled_message ->
   scheduled_job (final (call e u context w)) = scheduled_job w
   /\ job_queue (final (call e u context w)) = job_queue w)
  /\ (e <> EP_set_time ->
      message_time (final (call e u context w)) = message_time w)
  /\ (e = EP_trigger_job ->
      message_template (final (call e u context w)) = message_template w).
Proof.
  destruct (check_user u) eqn:H;
    [|rewrite (call_rejects e u context w H); now repeat split].
  destruct e; unfold call, bind.
  - unfold create_scheduled_message. rewrite H. now repeat split.
  - rewrite (set_message_spec u context w H). split; [|split].
    + intros _ _. now destruct w.
    + intros _. now destruct w.
    + discriminate.
  - rewrite (set_time_spec u context w H). split; [|split].
    + intros _ _. destruct (parse_time (text u)) as [[h m]|]; [|now split].
      destruct (fits_c_int h && fits_c_int m); [|now split].
      destruct (valid_time h m); now split.
    + intros Hc. now elim Hc.
    + discriminate.
  - rewrite (confirm_spec u context w H). split; [|split].
    + intros Hc. now elim Hc.
    + intros _. destruct (String.eqb (Str.lower (text u)) "yes").
      * cbv zeta. destruct (message_time w) eqn:Et; cbn; exact Et.
      * now destruct (String.eqb (Str.lower (text u)) "no").
    + discriminate.
  - unfold stop_scheduled_message. rewrite H. cbn [negb].
    unfold bind, gets. split; [|split].
    + intros _ Hc. now elim Hc.
    + intros _. now destruct (scheduled_job w).
    + discriminate.
  - unfold trigger_job. rewrite H. cbn [negb]. unfold bind.
    rewrite send_scheduled_message_spec. destruct w. now repeat split.
  - unfold cancel. rewrite H. now repeat split.
Qed.

Lemma entry_point_frames_witness :
  EP_set_time <> EP_confirm /\ EP_set_time <> EP_stop_scheduled_message
  /\ scheduled_job
       (final (call EP_set_time (owner "23:59") chat42
                 (final (day_setup initial_world))))
     = scheduled_job (final (day_setup initial_world))
  /\ job_queue
       (final (call EP_set_time (owner "23:59") chat42
                 (final (day_setup initial_world))))
     = job_queue (final (day_setup initial_world)).
Proof.
  assert (N1 : EP_set_time <> EP_confirm) by discriminate.
  assert (N2 : EP_set_time <> EP_stop_scheduled_message) by discriminate.
  split; [exact N1|]. split; [exact N2|].
  exact (proj1 (entry_point_frames EP_set_time (owner "23:59") chat42
                  (final (day_setup initial_world))) N1 N2).
Defined.

(** * Beyond the claims: installing and stopping *)

(** X14: installing and then stopping gives back an empty schedule: from
    any world the process can reach, a confirmed install followed by a
    stop leaves no job in the queue and no handle, with template,
    counters and time as the install found them; a second stop then
    finds nothing to stop and changes nothing. *)
Theorem install_then_stop
  (w : world) (u1 u2 u3 : Update) (context : Context) (t : time)
  (Hw : reachable w)
  (A1 : check_user u1 = true) (A2 : check_user u2 = true)
  (A3 : check_user u3 = true)
  (Y : String.eqb (Str.lower (text u1)) "yes" = true)
  (Ht : message_time w = Some t) :
  exists w1 w2 w3,
    confirm u1 context w = Returned END w1
    /\ stop_scheduled_message u2 context w1 = Returned tt w2
    /\ stop_scheduled_message u3 context w2 = Returned tt w3
    /\ job_queue w2 = [] /\ scheduled_job w2 = None
    /\ active_state w2 = active_state w
    /\ message_time w2 = Some t
    /\ same_state w2 w3
    /\ outbox w3 =
         (outbox w ++
          [ReplyText (effective_chat u1) SET_UP;
           ReplyText (effective_chat u2) "Scheduled message has been stopped.";
           ReplyText (effective_chat u3)
             "There is no active scheduled message."])%list.
Proof.
  pose proof (reachable_job_invariant w Hw) as Hinv.
  pose proof (confirm_spec u1 context w A1) as E1.
  rewrite Y, Ht in E1. cbv zeta in E1.
  rewrite (job_invariant_queue w Hinv) in E1. cbn [app] in E1.
  eexists. eexists. eexists. split; [exact E1|].
  unfold stop_scheduled_message. rewrite A2, A3. cbn [negb].
  unfold bind, gets. cbn. rewrite Nat.eqb_refl. cbn.
  split; [reflexivity|]. split; [reflexivity|].
  split; [reflexivity|]. split; [reflexivity|].
  split; [reflexivity|]. split; [exact Ht|].
  split; [now repeat split|].
  cbn. now rewrite <- !app_assoc.
Qed.

Lemma install_then_stop_witness :
  let w := final (set_time (owner "09:00") chat42 initial_world) in
  reachable w
  /\ check_user (owner "Yes") = true
  /\ check_user (owner "/stop_scheduled_message") = true
  /\ String.eqb (Str.lower (text (owner "Yes"))) "yes" = true
  /\ message_time w = Some {| hour := 9; minute := 0 |}
  /\ exists w1 w2 w3,
      confirm (owner "Yes") chat42 w = Returned END w1
      /\ stop_scheduled_message (owner "/stop_scheduled_message") chat42 w1
         = Returned tt w2
      /\ stop_scheduled_message (owner "/stop_scheduled_message") chat42 w2
         = Returned tt w3
      /\ job_queue w2 = [] /\ scheduled_job w2 = None.
Proof.
  cbv zeta.
  assert (Hw : reachable (final (set_time (owner "09:00") chat42 initial_world))).
  { apply (reachable_step initial_world); [constructor|].
    exact (step_update EP_set_time (owner "09:00") initial_world). }
  split; [exact Hw|]. split; [reflexivity|]. split; [reflexivity|].
  split; [reflexivity|]. split; [reflexivity|].
  destruct (install_then_stop _ (owner "Yes")
              (owner "/stop_scheduled_message")
              (owner "/stop_scheduled_message") chat42
              {| hour := 9; minute := 0 |}
              Hw eq_refl eq_refl eq_refl eq_refl eq_refl)
    as (w1 & w2 & w3 & E1 & E2 & E3 & Hq & Hj & _).
  exists w1, w2, w3. now repeat split.
Defined.

(** * Beyond the claims: what is no placeholder *)

Lemma str_negative (z : Z) :
  z < 0 -> exists r, PyInt.str z = String "-" r.
Proof.
  destruct z as [|p|p]; [lia | lia |]. intros _.
  unfold PyInt.str. cbn [Z.to_int NilZero.string_of_int].
  eexists; reflexivity.
Qed.

Lemma match_here_negative (l ws rest : string) (z : Z) :
  z < 0 -> Str.forallb Char.is_space ws = true ->
  Re.match_here (String "{" l) (placeholder (String "{" l) ws z ++ rest) = None.
Proof.
  intros Hz Hws. destruct (str_negative z Hz) as [r Er].
  unfold placeholder, Re.match_here. rewrite !append_assoc, Er.
  rewrite strip_prefix_app.
  change (String "-" r ++ "}" ++ rest) with (String "-" (r ++ "}" ++ rest)).
  destruct (span_run Char.is_space ws "-" (r ++ "}" ++ rest) Hws eq_refl)
    as [_ ->].
  reflexivity.
Qed.

(** X15: a placeholder with a negative number, such as
    [{increment, -5}], is no placeholder: in a template that has no
    other opening brace, [set_message] leaves the counter as it was, and
    rendering returns the template unchanged for all counter values. *)
Theorem negative_seed_is_literal
  (u : Update) (context : Context) (w : world)
  (p0 ws p1 : string) (z : Z)
  (H : check_user u = true) (Hz : z < 0)
  (Hws : Str.forallb Char.is_space ws = true)
  (H0 : brace_free p0 = true) (H1 : brace_free p1 = true)
  (Ht : text u = p0 ++ placeholder INCREMENT ws z ++ p1) :
  Re.occurs INCREMENT (text u) = false
  /\ increment_counter (final (set_message u context w)) = increment_counter w
  /\ decrement_counter (final (set_message u context w)) = decrement_counter w
  /\ forall i d : option Z, render (text u) i d = text u.
Proof.
  assert (Hfree : brace_free ("increment," ++ ws ++ PyInt.str z ++ "}" ++ p1)
                  = true).
  { rewrite !brace_free_app, str_brace_free, H1.
    unfold brace_free.
    now rewrite (forallb_impl _ _ ws space_not_open_brace Hws). }
  assert (Shape : text u
                  = p0 ++ String "{"
                      ("increment," ++ ws ++ PyInt.str z ++ "}" ++ p1)).
  { rewrite Ht. unfold placeholder, INCREMENT.
    now rewrite !append_assoc. }
  assert (Si : Re.search INCREMENT (text u) = None).
  { rewrite Shape. unfold INCREMENT.
    rewrite (search_split_at_brace "increment," eq_refl).
    rewrite (search_brace_free "increment," p0 H0), search_eq.
    pose proof (match_here_negative "increment," ws p1 z Hz Hws) as Hn.
    unfold placeholder in Hn. rewrite !append_assoc in Hn.
    cbn [append] in Hn |- *. rewrite Hn.
    now apply search_brace_free. }
  assert (Sd : Re.search DECREMENT (text u) = None).
  { rewrite Shape. unfold DECREMENT.
    rewrite (search_split_at_brace "decrement," eq_refl).
    rewrite (search_brace_free "decrement," p0 H0), search_eq.
    cbn [append]. change (Re.match_here "{decrement," _) with
      (@None (string * string)).
    now apply search_brace_free. }
  split; [unfold Re.occurs; now rewrite Si|].
  rewrite (set_message_spec u context w H). unfold seeded.
  rewrite Si, Sd.
  split; [now destruct w|]. split; [now destruct w|].
  intros i d. unfold render.
  destruct i as [i|]; [rewrite (search_none_sub _ _ _ Si)|];
    (destruct d as [d|]; [now rewrite (search_none_sub _ _ _ Sd)|reflexivity]).
Qed.

Lemma negative_seed_is_literal_witness :
  check_user (owner "T{increment, -5}") = true
  /\ -5 < 0
  /\ Str.forallb Char.is_space " " = true
  /\ brace_free "T" = true /\ brace_free "" = true
  /\ Re.occurs INCREMENT (text (owner "T{increment, -5}")) = false
  /\ forall i d : option Z,
      render (text (owner "T{increment, -5}")) i d
      = text (owner "T{increment, -5}").
Proof.
  split; [reflexivity|]. split; [lia|]. split; [reflexivity|].
  split; [reflexivity|]. split; [reflexivity|].
  pose proof (negative_seed_is_literal (owner "T{increment, -5}") chat42
                initial_world "T" " " "" (-5)
                eq_refl (Zlt_neg_0 5) eq_refl eq_refl eq_refl eq_refl) as T.
  split; [exact (proj1 T) | exact (proj2 (proj2 (proj2 T)))].
Defined.
